(** * sqlalchemy_utils.json_api: the JSON:API query builder

    A shallow embedding of [sqlalchemy_utils/json_api.py]: the SQL
    expression trees the module builds, the Python exceptions it can
    raise while building them, and the builder functions themselves
    ([select_aggregate], [JSONMapping.build_attributes],
    [build_id_and_type], [build_relationships], [build_data],
    [build_included], [select]). *)

From Stdlib Require Import Ascii.
From stdpp Require Import base option list gmap strings.

Local Open Scope string_scope.
Local Open Scope list_scope.

(** ** Schema catalog

    What the module reads from SQLAlchemy's mapper inspection.  A mapped
    class is identified by its name. *)

Definition cls := string.

(** [sa.ForeignKey]: [fk_parent] is the column of the table that carries
    the key ([fk.parent]), by name; [fk_referred] is the table and column
    it refers to. *)
Record ForeignKey := {
  fk_parent : string;
  fk_referred : string * string;
}.

(** [sa.Table] with its set of foreign keys. *)
Record Table := {
  table_name : string;
  foreign_keys : list ForeignKey;
}.

Record Column := {
  column_name : string;
  primary_key : bool;
  table : Table;
}.

(** A join condition ([primaryjoin], [secondaryjoin]): an equality of two
    table columns, each given as (table, column). *)
Inductive clause :=
  | ColumnsEq (l r : string * string).

(** [RelationshipProperty]: [mapper_class] is [relationship.mapper.class_],
    the class the relationship leads to. *)
Record Relationship := {
  key : string;
  mapper_class : cls;
  uselist : bool;
  primaryjoin : clause;
  secondary : option string;
  secondaryjoin : option clause;
}.

(** [sa.inspect(entity)]: the table the class is mapped to and the
    ordered [columns] and [relationships] collections, both keyed by
    attribute name. *)
Record Mapper := {
  local_table : Table;
  columns : list (string * Column);
  relationships : list (string * Relationship);
}.

(** ** Exceptions and results

    The Python exceptions the module can raise while building, the
    [InvalidRequestError] with which SQLAlchemy's [session.query] and
    [query.join] refuse their arguments, and the error of the path
    resolver as the specification names it. *)

Inductive exn :=
  | KeyError (k : string)
  | TypeError (msg : string)
  | AttributeError (owner attr : string)
  | IndexError (msg : string)
  | InvalidRequestError (msg : string)
  | UnknownRelationshipError (segment : string) (type : cls).

(** The class name of an exception, as Python reports it. *)
Definition exn_name (e : exn) : string :=
  match e with
  | KeyError _ => "KeyError"
  | TypeError _ => "TypeError"
  | AttributeError _ _ => "AttributeError"
  | IndexError _ => "IndexError"
  | InvalidRequestError _ => "InvalidRequestError"
  | UnknownRelationshipError _ _ => "UnknownRelationshipError"
  end.

Inductive result (A : Type) :=
  | Ok (a : A)
  | Raise (e : exn).
Arguments Ok {A} a.
Arguments Raise {A} e.

(** The collaborators of the module that are not part of it: mapper
    inspection and the relationship path resolver imported from
    [.relationships]. *)
Class Schema := {
  inspect : cls → Mapper;
  path_to_relationships : string → cls → result (list Relationship);
}.

(** ** SQL expression trees *)

(** What a query selects from or joins from: the mapped class itself, or
    an alias object made by [sa.orm.aliased]; the number is the identity
    of the alias object. *)
Inductive from_ref :=
  | Raw (c : cls)
  | Aliased (id : nat) (c : cls).

Definition ref_class (f : from_ref) : cls :=
  match f with Raw c => c | Aliased _ c => c end.

#[warnings="-register-all"]
Inductive expr :=
  | Text (t : string)                       (* sa.text(t) *)
  | Attr (f : from_ref) (name : string)     (* getattr(f, name) *)
  | ColumnE (c : Column)                    (* a Column object *)
  | Func (name : string) (args : list expr) (* sa.func.name( *args ) *)
  | Cast (e : expr) (ty : string)           (* sa.cast(e, ty) *)
  | Label (e : expr) (name : string)        (* e.label(name) *)
  | AsScalar (q : query)                    (* q.as_scalar() *)
with query :=
  | SessionQuery (e : expr)                 (* session.query(e) *)
  | SelectFrom (q : query) (f : from_ref)   (* q.select_from(f) *)
  | Join (q : query) (f : from_ref) (name : string) (aliased : bool)
                                   (* q.join(getattr(f, name), aliased=..) *)
  | JoinOn (q : query) (t : string) (on : option clause) (* q.join(t, on) *)
  | Filter (q : query) (c : clause)         (* q.filter(c) *)
  | Correlate (q : query) (c : cls)         (* q.correlate(c) *)
  | Union (a b : query)                     (* a.union(b) *)
  | Select (cols : list expr) (from_obj : option from_clause)
                                            (* sa.select(cols, from_obj=..) *)
with from_clause :=
  | FromEntity (c : cls)
  | FromAlias (q : query) (name : string)     (* q.alias(name) *)
  | FromSubquery (q : query) (name : string). (* q.subquery(name) *)

(** ** The builder monad

    Building threads one piece of state, the supply of alias identities
    consumed by [sa.orm.aliased], and may raise. *)

Definition Build (A : Type) : Type := nat → result A * nat.

Definition ret {A} (a : A) : Build A := λ n, (Ok a, n).
Definition raise {A} (e : exn) : Build A := λ n, (Raise e, n).
Definition bind {A B} (m : Build A) (k : A → Build B) : Build B :=
  λ n, match m n with
       | (Ok a, n') => k a n'
       | (Raise e, n') => (Raise e, n')
       end.
Definition lift {A} (r : result A) : Build A := λ n, (r, n).

#[global] Instance build_ret : MRet Build := @ret.
#[global] Instance build_bind : MBind Build := λ A B k m, bind m k.

(** [sa.orm.aliased(c)]: a new alias object. *)
Definition aliased (c : cls) : Build from_ref := λ n, (Ok (Aliased n c), S n).

(** ** Errors without state *)

#[global] Instance result_ret : MRet result := @Ok.
#[global] Instance result_bind : MBind result := λ A B k r,
  match r with Ok a => k a | Raise e => Raise e end.

(** Lookup by key in an ordered, keyed collection. *)
Fixpoint lookup_key {A} (k : string) (l : list (string * A)) : option A :=
  match l with
  | [] => None
  | (k', a) :: rest => if decide (k = k') then Some a else lookup_key k rest
  end.

(** [enumerate(l)] *)
Fixpoint enumerate_from {A} (i : nat) (l : list A) : list (nat * A) :=
  match l with
  | [] => []
  | a :: rest => (i, a) :: enumerate_from (S i) rest
  end.
Definition enumerate {A} (l : list A) : list (nat * A) := enumerate_from 0 l.

(** [functools.reduce(f, l)] without an initial value. *)
Definition reduce {A} (f : A → A → A) (l : list A) : result A :=
  match l with
  | [] => Raise (TypeError
                   "reduce() of empty sequence with no initial value")
  | a :: rest => Ok (foldl f a rest)
  end.

(** A [for] loop that collects what each iteration appends. *)
Fixpoint for_each {A B} (body : A → Build (list B)) (l : list A)
    : Build (list B) :=
  match l with
  | [] => mret []
  | a :: rest =>
      out ← body a;
      outs ← for_each body rest;
      mret (out ++ outs)
  end.

(** ** Module-level functions *)

(** [s(value) = sa.text("'{}'".format(value))] *)
Definition s (value : string) : expr := Text ("'" +:+ value +:+ "'").

(** [has_foreign_key(column)]: is the column the parent of one of its
    table's foreign keys. *)
Definition has_foreign_key (column : Column) : bool :=
  bool_decide (column_name column ∈ fk_parent <$> foreign_keys (table column)).

(** Attribute lookup on a mapped class or an alias of it: the mapped
    attributes are the columns and the relationships. *)
Definition has_attr `{Schema} (c : cls) (name : string) : bool :=
  bool_decide (name ∈ (columns (inspect c)).*1)
  || bool_decide (name ∈ (relationships (inspect c)).*1).

Definition getattr `{Schema} (f : from_ref) (name : string)
    : result (from_ref * string) :=
  if has_attr (ref_class f) name then Ok (f, name)
  else Raise (AttributeError (ref_class f) name).

(** [session.query(e)]: the ORM takes a column expression or a mapped
    entity, and refuses a bare text clause. *)
Definition session_query (e : expr) : result query :=
  match e with
  | Text _ =>
      Raise (InvalidRequestError
               "SQL expression, column, or mapped entity expected")
  | _ => Ok (SessionQuery e)
  end.

(** Is the source of a joined attribute the mapped class [c] itself,
    not an alias of it. *)
Definition is_class (f : from_ref) (c : cls) : bool :=
  match f with
  | Raw c' => bool_decide (c' = c)
  | Aliased _ _ => false
  end.

(** [query.join(getattr(f, name), aliased=a)]: the attribute must be a
    relationship of the class of [f] (a column attribute has no mapper
    to join to); and unless the join asks for an anonymous alias, the
    relationship must not lead from the mapped class to that same
    class. *)
Definition query_join `{Schema} (q : query) (f : from_ref) (name : string)
    (a : bool) : result query :=
  match lookup_key name (relationships (inspect (ref_class f))) with
  | None => Raise (AttributeError (ref_class f +:+ "." +:+ name) "mapper")
  | Some r =>
      if negb a && is_class f (mapper_class r) then
        Raise (InvalidRequestError
                 "Can't construct a join, they are the same entity")
      else Ok (Join q f name a)
  end.

(** The loop of [select_aggregate] over [relationships[0:-2]]: join the
    attribute of the current [alias] with [aliased=True], then rebind
    [alias] to the relationship's class. *)
Fixpoint join_hops `{Schema} (rels : list Relationship)
    (q : query) (alias : from_ref) : result (query * from_ref) :=
  match rels with
  | [] => Ok (q, alias)
  | relationship :: rest =>
      match getattr alias (key relationship) with
      | Ok (f, name) =>
          match query_join q f name true with
          | Ok q => join_hops rest q (Raw (mapper_class relationship))
          | Raise e => Raise e
          end
      | Raise e => Raise e
      end
  end.

Definition select_aggregate `{Schema} (agg_expr : expr)
    (relationships : list Relationship) : Build query :=
  let n := length relationships in
  q ←
    (if bool_decide (1 < n) then
       match relationships with
       | [] => raise (IndexError "list index out of range")
       | r0 :: _ =>
           alias ← aliased (mapper_class r0);
           q ← lift (session_query agg_expr);
           let q := SelectFrom q alias in
           '(q, alias) ← lift (join_hops (take (n - 2) relationships)
                                         q alias);
           match relationships !! (n - 2) with
           | None => raise (IndexError "list index out of range")
           | Some r =>
               '(f, name) ← lift (getattr alias (key r));
               lift (query_join q f name false)
           end
       end
     else
       match relationships with
       | [] => raise (IndexError "list index out of range")
       | r0 :: _ =>
           q ← lift (session_query agg_expr);
           mret (SelectFrom q (Raw (mapper_class r0)))
       end);
  match last relationships with
  | None => raise (IndexError "list index out of range")
  | Some last =>
      let condition := primaryjoin last in
      let q :=
        match secondary last with
        | Some t => JoinOn q t (secondaryjoin last)
        | None => q
        end in
      mret (Filter q condition)
  end.

(** ** JSONMapping *)

(** A [fields] argument: [None] or a dict from alias to field names. *)
Abbreviation fields_t := (option (gmap string (list string))).

Record JSONMapping := {
  mapping : option (list (string * cls));
  inversed : option (gmap cls string);
}.

(** [dict((value, key) for key, value in items)]: a later item replaces
    an earlier one with the same value. *)
Definition inverse_items (items : list (string * cls)) : gmap cls string :=
  foldl (λ d kv, <[kv.2 := kv.1]> d) ∅ items.

(** [JSONMapping.__init__]; the mapping is given as its items in
    insertion order. *)
Definition JSONMapping_init (mapping : option (list (string * cls)))
    : JSONMapping :=
  {| mapping := mapping;
     inversed := match mapping with
                 | Some ((_ :: _) as items) => Some (inverse_items items)
                 | _ => None
                 end |}.

(** [self.inversed[entity]] *)
Definition inversed_get (self : JSONMapping) (entity : cls) : result string :=
  match inversed self with
  | None => Raise (TypeError "'NoneType' object is not subscriptable")
  | Some d =>
      match d !! entity with
      | Some a => Ok a
      | None => Raise (KeyError entity)
      end
  end.

(** [fields and alias in fields] *)
Definition fields_and_has (fields : fields_t) (alias : string) : bool :=
  match fields with
  | None => false
  | Some d => negb (bool_decide (d = ∅)) && bool_decide (is_Some (d !! alias))
  end.

(** [alias in fields] *)
Definition fields_contains (fields : fields_t) (alias : string) : result bool :=
  match fields with
  | None => Raise (TypeError "argument of type 'NoneType' is not iterable")
  | Some d => Ok (bool_decide (is_Some (d !! alias)))
  end.

(** [fields[alias]] *)
Definition fields_getitem (fields : fields_t) (alias : string)
    : result (list string) :=
  match fields with
  | None => Raise (TypeError "'NoneType' object is not subscriptable")
  | Some d =>
      match d !! alias with
      | Some names => Ok names
      | None => Raise (KeyError alias)
      end
  end.

(** The local function [skip_field] of [build_attributes]. *)
Definition skip_field (fields : fields_t) (entity_name : string)
    (k : string) (column : Column) : bool :=
  primary_key column
  || has_foreign_key column
  || match fields with
     | None => false
     | Some d =>
         negb (bool_decide (d = ∅))
         && match d !! entity_name with
            | None => false
            | Some names => negb (bool_decide (k ∈ names))
            end
     end.

Definition build_attributes `{Schema} (self : JSONMapping) (entity : cls)
    (fields : fields_t) : result (list expr) :=
  entity_name ← inversed_get self entity;
  mret (concat ((λ kc, [s kc.1; ColumnE kc.2]) <$>
          filter (λ kc, negb (skip_field fields entity_name kc.1 kc.2))
                 (columns (inspect entity)))).

Definition build_id_and_type `{Schema} (self : JSONMapping) (model : cls)
    : result (list expr) :=
  model_alias ← inversed_get self model;
  '(f, name) ← getattr (Raw model) "id";
  mret [s "id"; Attr f name; s "type"; s model_alias].

(** One iteration of the loop of [build_relationships]. *)
Definition relationship_entry `{Schema} (self : JSONMapping) (entity : cls)
    (relationship : Relationship) : Build (list expr) :=
  relationship_attrs ←
    lift (build_id_and_type self (mapper_class relationship));
  let func := Func "json_build_object" relationship_attrs in
  let func := if uselist relationship then Func "array_agg" [func]
              else func in
  q ← select_aggregate func [relationship];
  mret [s (key relationship);
        Func "json_build_object"
             [s "data"; AsScalar (Correlate q entity)]].

Definition build_relationships `{Schema} (self : JSONMapping) (entity : cls)
    (fields : fields_t) : Build (list expr) :=
  model_alias ← lift (inversed_get self entity);
  names ← lift (fields_getitem fields model_alias);
  let relationships :=
    omap (λ field, lookup_key field (relationships (inspect entity)))
         names in
  for_each (relationship_entry self entity) relationships.

Definition build_attrs_and_relationships `{Schema} (self : JSONMapping)
    (entity : cls) (fields : fields_t) : Build (list expr) :=
  attrs ← lift (build_attributes self entity fields);
  json_relationships ← build_relationships self entity fields;
  mret ((match attrs with
         | [] => []
         | _ => [s "attributes"; Func "json_build_object" attrs]
         end)
        ++
        (match json_relationships with
         | [] => []
         | _ => [s "relationships";
                 Func "json_build_object" json_relationships]
         end)).

Definition build_data `{Schema} (self : JSONMapping) (entity : cls)
    (fields : fields_t) (include : option (list string))
    : Build (list expr) :=
  model_alias ← lift (inversed_get self entity);
  json_fields ← lift (build_id_and_type self entity);
  json_fields ←
    (if fields_and_has fields model_alias then
       more ← build_attrs_and_relationships self entity fields;
       mret (json_fields ++ more)
     else mret json_fields);
  mret [s "data";
        AsScalar
          (Correlate
             (Select [Func "array_agg" [Text "main_json.json_object"]]
                (Some (FromAlias
                   (Select [Label (Func "json_build_object" json_fields)
                                  "json_object"] None)
                   "main_json")))
             entity)].

(** The body of the inner loop of [build_included], for one
    [(index, relationship)] of [enumerate(relationships)]. *)
Definition included_select `{Schema} (self : JSONMapping) (entity : cls)
    (fields : fields_t) (relationships : list Relationship)
    (ir : nat * Relationship) : Build (list query) :=
  let c := mapper_class ir.2 in
  cls_alias ← lift (inversed_get self c);
  main_fields ← lift (build_id_and_type self c);
  selected ← lift (fields_contains fields cls_alias);
  main_fields ←
    (if selected : bool then
       attrs ← lift (build_attributes self c fields);
       mret (main_fields
             ++ [s "attributes"; Func "json_build_object" attrs])
     else mret main_fields);
  let func :=
    Label (Cast (Func "json_build_object" main_fields) "JSONB")
          "json_object" in
  q ← select_aggregate func (reverse (take (S ir.1) relationships));
  mret [Correlate q entity].

(** The body of the outer loop of [build_included], for one path. *)
Definition included_path `{Schema} (self : JSONMapping) (entity : cls)
    (fields : fields_t) (path : string) : Build (list query) :=
  relationships ← lift (path_to_relationships path entity);
  for_each (included_select self entity fields relationships)
           (enumerate relationships).

Definition build_included `{Schema} (self : JSONMapping) (entity : cls)
    (fields : fields_t) (include : option (list string))
    : Build (list expr) :=
  match include with
  | None | Some [] => mret []
  | Some paths =>
      selects ← for_each (included_path self entity fields) paths;
      union ← lift (reduce Union selects);
      mret [s "included";
            AsScalar
              (Select [Func "array_agg" [Text "included.json_object"]]
                      (Some (FromSubquery union "included")))]
  end.

(** [JSONMapping.select]; the diagnostic [print] of the compiled query
    does not take part in the result and is left out. *)
Definition select `{Schema} (self : JSONMapping) (entity : cls)
    (fields : fields_t) (include : option (list string)) : Build query :=
  args ← build_data self entity fields include;
  included ← build_included self entity fields include;
  let args := args ++ included in
  mret (Select [Func "json_build_object" args] (Some (FromEntity entity))).

(** ** The relationship path resolver *)

(** [path.split('.')] *)
Fixpoint split_dots (acc : string) (path : string) : list string :=
  match path with
  | EmptyString => [acc]
  | String a rest =>
      if decide (a = "."%char) then acc :: split_dots "" rest
      else split_dots (acc +:+ String a "") rest
  end.

(** Modelled from the spec: [path_to_relationships] of
    [sqlalchemy_utils.relationships], which [json_api.py] imports and
    which is not among the sources.  The path is split on dots; each
    segment is looked up by name among the relationships of the type
    reached so far, which then advances to the relationship's target;
    a segment that matches no declared relationship fails with
    [UnknownRelationshipError], naming the segment and the current
    type. *)
Fixpoint resolve_segments (inspect : cls → Mapper) (segments : list string)
    (c : cls) : result (list Relationship) :=
  match segments with
  | [] => Ok []
  | segment :: rest =>
      match lookup_key segment (relationships (inspect c)) with
      | None => Raise (UnknownRelationshipError segment c)
      | Some r =>
          rs ← resolve_segments inspect rest (mapper_class r);
          mret (r :: rs)
      end
  end.

Definition resolve_path (inspect : cls → Mapper) (path : string) (c : cls)
    : result (list Relationship) :=
  resolve_segments inspect (split_dots "" path) c.

(** ** Reading the built trees *)

(** The keys of a [json_build_object] argument list, which alternates
    keys and values. *)
Fixpoint object_keys (args : list expr) : list expr :=
  match args with
  | k :: _ :: rest => k :: object_keys rest
  | _ => []
  end.

(** The key/value pairs of a [json_build_object] argument list. *)
Fixpoint object_members (args : list expr) : list (expr * expr) :=
  match args with
  | k :: v :: rest => (k, v) :: object_members rest
  | _ => []
  end.

(** The error of the resolver for the first include path, in the order
    of the list, that it does not resolve. *)
Fixpoint first_resolver_error `{Schema} (entity : cls)
    (paths : list string) : option exn :=
  match paths with
  | [] => None
  | p :: rest =>
      match path_to_relationships p entity with
      | Raise e => Some e
      | Ok _ => first_resolver_error entity rest
      end
  end.

(** Is an expression a bare text clause, [sa.text(..)]. *)
Definition is_text (e : expr) : bool :=
  match e with
  | Text _ => true
  | _ => false
  end.

(** The relationship joins of an ORM query, in the order they were
    added: the source of the joined attribute, its name and the
    [aliased] flag. *)
Fixpoint joins (q : query) : list (from_ref * string * bool) :=
  match q with
  | Join q f name a => joins q ++ [(f, name, a)]
  | SelectFrom q _ | JoinOn q _ _ | Filter q _ | Correlate q _ => joins q
  | SessionQuery _ | Union _ _ | Select _ _ => []
  end.

(** The expression an ORM query selects. *)
Fixpoint selected (q : query) : option expr :=
  match q with
  | SessionQuery e => Some e
  | SelectFrom q _ | Join q _ _ _ | JoinOn q _ _ | Filter q _
  | Correlate q _ => selected q
  | Union _ _ | Select _ _ => None
  end.

Definition is_alias (f : from_ref) : bool :=
  match f with Aliased _ _ => true | Raw _ => false end.

Definition alias_id (f : from_ref) : option nat :=
  match f with Aliased i _ => Some i | Raw _ => None end.

(** A hop is joined through an alias when the attribute it joins belongs
    to an alias object or the join itself asks for an anonymous alias;
    the aliases of a query are fresh per hop when that holds of every
    join and no alias object serves two joins. *)
Definition fresh_alias_per_hop (q : query) : bool :=
  forallb (λ j, is_alias j.1.1 || j.2) (joins q)
  && bool_decide (NoDup (omap (λ j, alias_id j.1.1) (joins q))).

(** Renumbering of alias identities: every alias object [i] becomes
    [k + i]. *)
Definition shift_ref (k : nat) (f : from_ref) : from_ref :=
  match f with
  | Raw c => Raw c
  | Aliased i c => Aliased (k + i) c
  end.

Fixpoint shift_expr (k : nat) (e : expr) : expr :=
  match e with
  | Text t => Text t
  | Attr f name => Attr (shift_ref k f) name
  | ColumnE c => ColumnE c
  | Func name args => Func name (List.map (shift_expr k) args)
  | Cast e ty => Cast (shift_expr k e) ty
  | Label e name => Label (shift_expr k e) name
  | AsScalar q => AsScalar (shift_query k q)
  end
with shift_query (k : nat) (q : query) : query :=
  match q with
  | SessionQuery e => SessionQuery (shift_expr k e)
  | SelectFrom q f => SelectFrom (shift_query k q) (shift_ref k f)
  | Join q f name a => Join (shift_query k q) (shift_ref k f) name a
  | JoinOn q t on => JoinOn (shift_query k q) t on
  | Filter q c => Filter (shift_query k q) c
  | Correlate q c => Correlate (shift_query k q) c
  | Union a b => Union (shift_query k a) (shift_query k b)
  | Select cols from_obj =>
      Select (List.map (shift_expr k) cols)
             (match from_obj with
              | Some f => Some (shift_from k f)
              | None => None
              end)
  end
with shift_from (k : nat) (f : from_clause) : from_clause :=
  match f with
  | FromEntity c => FromEntity c
  | FromAlias q name => FromAlias (shift_query k q) name
  | FromSubquery q name => FromSubquery (shift_query k q) name
  end.

(** A second query has the structure of a first when it differs from it
    at most in the identities of its alias objects, renumbered
    uniformly. *)
Definition same_structure (q1 q2 : query) : Prop :=
  ∃ k, q2 = shift_query k q1.

(** The outcome of a builder run in a state advanced by [k]: the value
    renumbered by [f], the final state advanced by [k]. *)
Definition shift_outcome {A} (f : A → A) (k : nat) (rn : result A * nat)
    : result A * nat :=
  (match rn.1 with Ok a => Ok (f a) | Raise e => Raise e end, k + rn.2).

(** [json_build_object('id', c.id, 'type', alias)] *)
Definition identifier_object (c : cls) (alias : string) : expr :=
  Func "json_build_object" [s "id"; Attr (Raw c) "id"; s "type"; s alias].

(** ** Execution of the relationship sub-queries

    The module compiles for PostgreSQL ([postgresql.dialect()], [JSONB]).
    A relationship sub-query selects from the table of the target class,
    joined to the secondary table when there is one, the rows that
    satisfy its filter against the row of the entity it is correlated
    to; the value of such a scalar sub-query is PostgreSQL's:
    [array_agg] over no rows is NULL, a sub-query without aggregate is
    NULL over no rows, the value of its only row over one, and an
    execution error over more.  A sub-query correlated to a table it
    selects from itself (a self-referencing relationship) is left
    without a value: it has no FROM clause of its own to range over. *)

#[warnings="-register-all"]
Inductive json :=
  | JNull
  | JValue (v : string)
  | JArray (items : list json)
  | JObject (members : list (string * json)).

(** A row of the selected entity: the value of each attribute. *)
Definition row := string → json.

(** The string a quoted SQL literal ['...'] denotes. *)
Fixpoint drop_closing_quote (t : string) : option string :=
  match t with
  | EmptyString => None
  | String a EmptyString => if decide (a = "'"%char) then Some "" else None
  | String a rest => String a <$> drop_closing_quote rest
  end.

Definition unquote (t : string) : option string :=
  match t with
  | String a rest =>
      if decide (a = "'"%char) then drop_closing_quote rest else None
  | EmptyString => None
  end.

(** The string a text literal denotes. *)
Definition literal (e : expr) : option string :=
  match e with
  | Text t => unquote t
  | _ => None
  end.

Fixpoint eval_row (r : row) (e : expr) : option json :=
  match e with
  | Text t => JValue <$> unquote t
  | Attr _ name => Some (r name)
  | ColumnE c => Some (r (column_name c))
  | Func name args =>
      if decide (name = "json_build_object") then
        JObject <$>
          (fix members (l : list expr) : option (list (string * json)) :=
             match l with
             | [] => Some []
             | k :: v :: rest =>
                 match eval_row r k, eval_row r v, members rest with
                 | Some (JValue name), Some value, Some ms =>
                     Some ((name, value) :: ms)
                 | _, _, _ => None
                 end
             | _ => None
             end) args
      else None
  | Cast _ _ | Label _ _ | AsScalar _ => None
  end.

(** The argument of [array_agg(e)], if the expression is one. *)
Definition aggregated (agg : expr) : option expr :=
  match agg with
  | Func name [e] => if decide (name = "array_agg") then Some e else None
  | _ => None
  end.

(** The value of a scalar sub-query selecting [agg] over [rows]. *)
Definition eval_scalar (agg : expr) (rows : list row) : option json :=
  match aggregated agg with
  | Some e =>
      match rows with
      | [] => Some JNull
      | _ => JArray <$> mapM (λ r, eval_row r e) rows
      end
  | None =>
      match rows with
      | [] => Some JNull
      | [r] => eval_row r agg
      | _ => None
      end
  end.

(** A database: the rows of each table, by table name. *)
Definition database := string → list row.

(** The rows in scope, by table name, the row of the selected table
    first. *)
Definition scope := list (string * row).

(** The table a class is mapped to. *)
Definition table_of `{Schema} (c : cls) : string :=
  table_name (local_table (inspect c)).

(** SQL equality of two column values: NULL equals nothing. *)
Definition scalar_eq (a b : json) : bool :=
  match a, b with
  | JValue x, JValue y => bool_decide (x = y)
  | _, _ => false
  end.

(** Does a join condition hold of the rows in scope. *)
Definition clause_holds (sc : scope) (c : clause) : bool :=
  match c with
  | ColumnsEq (t1, c1) (t2, c2) =>
      match lookup_key t1 sc, lookup_key t2 sc with
      | Some r1, Some r2 => scalar_eq (r1 c1) (r2 c2)
      | _, _ => false
      end
  end.

(** FROM a table: one scope per row. *)
Definition table_scopes (db : database) (t : string) : list scope :=
  (λ r, [(t, r)]) <$> db t.

(** JOIN a table ON a condition. *)
Definition join_scopes (db : database) (scopes : list scope) (t : string)
    (on : clause) : list scope :=
  sc ← scopes;
  filter (λ sc', clause_holds sc' on) ((λ r, sc ++ [(t, r)]) <$> db t).

(** WHERE a condition holds, seen from the row of the outer table. *)
Definition where_scopes (outer_table : string) (outer : row)
    (scopes : list scope) (c : clause) : list scope :=
  filter (λ sc, clause_holds ((outer_table, outer) :: sc) c) scopes.

(** The rows of the selected table in a list of scopes. *)
Definition selected_rows (scopes : list scope) : list row :=
  omap (λ sc, snd <$> head sc) scopes.

(** The tables an ORM query selects from. *)
Fixpoint from_tables `{Schema} (q : query) : list string :=
  match q with
  | SelectFrom q (Raw c) => from_tables q ++ [table_of c]
  | JoinOn q t _ => from_tables q ++ [t]
  | _ => []
  end.

(** The scopes the FROM clause of a single-hop ORM query ranges over:
    the table of the class it selects from, joined to a secondary
    table. *)
Fixpoint from_scopes `{Schema} (db : database) (q : query)
    : option (list scope) :=
  match q with
  | SelectFrom (SessionQuery _) (Raw c) => Some (table_scopes db (table_of c))
  | JoinOn q t (Some on) =>
      scopes ← from_scopes db q; Some (join_scopes db scopes t on)
  | _ => None
  end.

(** The value of the scalar sub-query [q.correlate(c)] for the row
    [outer] of [c]. *)
Definition eval_subquery `{Schema} (db : database) (outer : row)
    (q : query) : option json :=
  match q with
  | Correlate (Filter from condition) c =>
      scopes ← from_scopes db from;
      agg ← selected from;
      if bool_decide (table_of c ∈ from_tables from) then None
      else eval_scalar agg
             (selected_rows (where_scopes (table_of c) outer scopes condition))
  | _ => None
  end.

(** The value under ['data'] of a relationship entry
    [json_build_object('data', query.as_scalar())] for the row [outer]
    of the entity. *)
Definition data_value `{Schema} (db : database) (outer : row)
    (entry : expr) : option json :=
  match entry with
  | Func name [k; AsScalar q] =>
      if decide (name = "json_build_object" ∧ literal k = Some "data")
      then eval_subquery db outer q
      else None
  | _ => None
  end.

(** The rows of its target that a relationship relates to the row
    [outer] of [entity]: the rows of the target's table, joined to the
    secondary table when there is one, that satisfy the join conditions
    of the relationship.  A relationship whose target or secondary table
    is the entity's own table is left out. *)
Definition related_rows `{Schema} (db : database) (entity : cls)
    (outer : row) (r : Relationship) : option (list row) :=
  let t := table_of (mapper_class r) in
  match secondary r, secondaryjoin r with
  | None, _ =>
      if decide (table_of entity = t) then None
      else Some (selected_rows
                   (where_scopes (table_of entity) outer
                      (table_scopes db t) (primaryjoin r)))
  | Some link, Some on =>
      if decide (table_of entity = t ∨ table_of entity = link) then None
      else Some (selected_rows
                   (where_scopes (table_of entity) outer
                      (join_scopes db (table_scopes db t) link on)
                      (primaryjoin r)))
  | Some _, None => None
  end.

(** The resource identifier object of a related row. *)
Definition related_object (alias : string) (r : row) : json :=
  JObject [("id", r "id"); ("type", JValue alias)].

(** What a relationship entry holds under ['data'], by cardinality:
    to-many, the list of the identifiers of the related rows, and NULL
    when there is none; to-one, the identifier of the related row, NULL
    when there is none, and an execution error when there are several. *)
Definition relationship_data (many : bool) (alias : string)
    (rows : list row) : option json :=
  match rows with
  | [] => Some JNull
  | r :: more =>
      if many then Some (JArray (related_object alias <$> rows))
      else match more with
           | [] => Some (related_object alias r)
           | _ => None
           end
  end.

(** A column carries a foreign key when some foreign key of its table
    has it for parent. *)
Definition is_foreign_key (c : Column) : Prop :=
  Exists (λ fk, fk_parent fk = column_name c) (foreign_keys (table c)).

#[global] Instance is_foreign_key_dec (c : Column) :
  Decision (is_foreign_key c).
Proof. unfold is_foreign_key. apply _. Defined.

(** The non-primary-key, non-foreign-key columns of a type, by key, in
    the order of the schema. *)
Definition plain_columns `{Schema} (c : cls) : list string :=
  (filter (λ kc, primary_key kc.2 = false ∧ ¬ is_foreign_key kc.2)
          (columns (inspect c))).*1.

(** ** The schema of the test suite

    [tests/test_json_api.py]: User, Category (self-referencing through
    [parent] / [subcategories]), Article and Comment, with the mapping
    articles / categories / comments. *)

Module Fixture.

Definition fk (column : string) (referred : string * string)
    : ForeignKey :=
  {| fk_parent := column; fk_referred := referred |}.

Definition user_table := {| table_name := "user"; foreign_keys := [] |}.
Definition category_table :=
  {| table_name := "category";
     foreign_keys := [fk "parent_id" ("category", "id")] |}.
Definition article_table :=
  {| table_name := "article";
     foreign_keys := [fk "category_id" ("category", "id");
                      fk "author_id" ("user", "id");
                      fk "owner_id" ("user", "id")] |}.
Definition comment_table :=
  {| table_name := "comment";
     foreign_keys := [fk "article_id" ("article", "id");
                      fk "author_id" ("user", "id")] |}.

Definition col (t : Table) (name : string) (pk : bool)
    : string * Column :=
  (name, {| column_name := name; primary_key := pk; table := t |}).

Definition rel (name : string) (target : cls) (many : bool)
    (l r : string * string) : string * Relationship :=
  (name, {| key := name; mapper_class := target; uselist := many;
            primaryjoin := ColumnsEq l r;
            secondary := None; secondaryjoin := None |}).

Definition subcategories : string * Relationship :=
  rel "subcategories" "Category" true
      ("category", "id") ("category", "parent_id").
Definition category : string * Relationship :=
  rel "category" "Category" false
      ("category", "id") ("article", "category_id").
Definition comments : string * Relationship :=
  rel "comments" "Comment" true
      ("article", "id") ("comment", "article_id").

Definition User : Mapper :=
  {| local_table := user_table;
     columns := [col user_table "id" true; col user_table "name" false];
     relationships :=
       [rel "authored_articles" "Article" true
            ("article", "author_id") ("user", "id");
        rel "owned_articles" "Article" true
            ("article", "owner_id") ("user", "id");
        rel "comments" "Comment" true
            ("user", "id") ("comment", "author_id")] |}.

Definition Category : Mapper :=
  {| local_table := category_table;
     columns := [col category_table "id" true;
                 col category_table "name" false;
                 col category_table "created_at" false;
                 col category_table "parent_id" false];
     relationships :=
       [rel "parent" "Category" false
            ("category", "id") ("category", "parent_id");
        subcategories;
        rel "articles" "Article" true
            ("category", "id") ("article", "category_id")] |}.

Definition Article : Mapper :=
  {| local_table := article_table;
     columns := [col article_table "id" true;
                 col article_table "name" false;
                 col article_table "content" false;
                 col article_table "category_id" false;
                 col article_table "author_id" false;
                 col article_table "owner_id" false];
     relationships :=
       [category;
        rel "author" "User" false
            ("article", "author_id") ("user", "id");
        rel "owner" "User" false
            ("article", "owner_id") ("user", "id");
        comments] |}.

Definition Comment : Mapper :=
  {| local_table := comment_table;
     columns := [col comment_table "id" true;
                 col comment_table "content" false;
                 col comment_table "article_id" false;
                 col comment_table "author_id" false];
     relationships :=
       [rel "article" "Article" false
            ("article", "id") ("comment", "article_id");
        rel "author" "User" false
            ("user", "id") ("comment", "author_id")] |}.

(** A type outside the test suite: its primary key is not named [id]. *)
Definition country_table := {| table_name := "country"; foreign_keys := [] |}.
Definition Country : Mapper :=
  {| local_table := country_table;
     columns := [col country_table "code" true;
                 col country_table "name" false];
     relationships := [] |}.

(** Another: its primary key is the column [code], and it has a plain
    column named [id]. *)
Definition region_table := {| table_name := "region"; foreign_keys := [] |}.
Definition Region : Mapper :=
  {| local_table := region_table;
     columns := [col region_table "code" true;
                 col region_table "id" false];
     relationships := [] |}.

Definition catalog (c : cls) : Mapper :=
  if decide (c = "User") then User
  else if decide (c = "Category") then Category
  else if decide (c = "Article") then Article
  else if decide (c = "Comment") then Comment
  else if decide (c = "Country") then Country
  else if decide (c = "Region") then Region
  else {| local_table := {| table_name := c; foreign_keys := [] |};
          columns := []; relationships := [] |}.

Definition schema : Schema :=
  {| inspect := catalog;
     path_to_relationships := resolve_path catalog |}.

(** [JSONMapping({'articles': Article, 'categories': Category,
    'comments': Comment})] *)
Definition items : list (string * cls) :=
  [("articles", "Article"); ("categories", "Category");
   ("comments", "Comment")].
Definition json : JSONMapping := JSONMapping_init (Some items).

(** The same with registered types whose key is not [id]. *)
Definition json_countries : JSONMapping :=
  JSONMapping_init (Some [("articles", "Article");
                          ("countries", "Country");
                          ("regions", "Region")]).

Definition fields_of (items : list (string * list string)) : fields_t :=
  Some (list_to_map items).

End Fixture.

(** What [build_relationships] promises of the entry of relationship
    [r] of [entity]: its key; its value, the object whose key ['data']
    holds a scalar sub-query correlated to [entity]; the expression that
    sub-query selects; and, in every database and for every row of the
    entity, the value under ['data'] by the cardinality of the
    relationship and the rows it relates to that row. *)
Definition entry_of `{Schema} (self : JSONMapping) (entity : cls)
    (r : Relationship) (kv : expr * expr) : Prop :=
  kv.1 = s (key r)
  ∧ ∃ a q,
      inversed_get self (mapper_class r) = Ok a
      ∧ kv.2 = Func "json_build_object"
                    [s "data"; AsScalar (Correlate q entity)]
      ∧ selected q
        = Some (if uselist r
                then Func "array_agg" [identifier_object (mapper_class r) a]
                else identifier_object (mapper_class r) a)
      ∧ ∀ db outer rows,
          related_rows db entity outer r = Some rows →
          data_value db outer kv.2 = relationship_data (uselist r) a rows.

(** Two [fields] dicts agree for a mapping when the builders cannot
    tell them apart: for every type with a registered alias, the alias
    is a key of both or of neither, and the two field lists name the
    same columns of the type and select the same relationships of it. *)
Definition fields_agree `{Schema} (self : JSONMapping)
    (d1 d2 : gmap string (list string)) : Prop :=
  ∀ c a, inversed_get self c = Ok a →
    match d1 !! a, d2 !! a with
    | Some F1, Some F2 =>
        (∀ k, k ∈ (columns (inspect c)).*1 → k ∈ F1 ↔ k ∈ F2)
        ∧ omap (λ field, lookup_key field (relationships (inspect c))) F1
          = omap (λ field, lookup_key field (relationships (inspect c))) F2
    | None, None => True
    | _, _ => False
    end.

(** The sub-queries combined by [reduce(lambda a, b: a.union(b), ..)],
    in order. *)
Fixpoint union_members (q : query) : list query :=
  match q with
  | Union a b => union_members a ++ [b]
  | _ => [q]
  end.

(** The sub-queries an include path contributes, one per relationship of
    its chain: each is described by the first relationship of the chain
    and the relationship reached. *)
Definition path_members (chain : list Relationship)
    : list (Relationship * Relationship) :=
  match chain with
  | [] => []
  | first :: _ => (λ r, (first, r)) <$> chain
  end.

(** What [build_included] makes of one relationship [r] reached on a
    path that starts with [first]: a sub-query correlated to the root,
    filtered by the join condition of [first], that selects the JSONB
    object of the identifier of [r]'s target, with its attributes when
    the target's alias is a key of [fields] and with nothing more. *)
Definition included_member (self : JSONMapping) (entity : cls)
    (fr : Relationship * Relationship) (member : query) : Prop :=
  ∃ q main a,
    member = Correlate (Filter q (primaryjoin fr.1)) entity
    ∧ selected q
      = Some (Label (Cast (Func "json_build_object" main) "JSONB")
                    "json_object")
    ∧ inversed_get self (mapper_class fr.2) = Ok a
    ∧ take 4 main
      = [s "id"; Attr (Raw (mapper_class fr.2)) "id"; s "type"; s a]
    ∧ (object_keys main = [s "id"; s "type"]
       ∨ object_keys main = [s "id"; s "type"; s "attributes"]).

(** * Properties *)

Section Properties.
Context `{Schema}.

(** ** Quoted literals *)

Lemma drop_closing_quote_app (v : string) :
  drop_closing_quote (v +:+ "'") = Some v.
Proof.
  induction v as [|a v IH]; [reflexivity|].
  change (String a v +:+ "'") with (String a (v +:+ "'")).
  destruct (v +:+ "'") as [|b w] eqn:E; [by destruct v|].
  change (drop_closing_quote (String a (String b w)))
    with (String a <$> drop_closing_quote (String b w)).
  by rewrite IH.
Qed.

Lemma literal_s (v : string) : literal (s v) = Some v.
Proof. unfold s. cbn. apply drop_closing_quote_app. Qed.

#[global] Instance s_inj : Inj (=) (=) s.
Proof.
  intros a b E. apply (f_equal literal) in E.
  rewrite !literal_s in E. congruence.
Qed.

(** ** Attributes *)

Lemma object_keys_pairs {A} (k : A → expr) (v : A → expr) (l : list A) :
  object_keys (concat ((λ a, [k a; v a]) <$> l)) = k <$> l.
Proof. induction l as [|a l IH]; cbn; [done|]. by rewrite IH. Qed.

Lemma skip_field_selected (d : gmap string (list string)) A F k c :
  d !! A = Some F →
  skip_field (Some d) A k c
  = primary_key c || has_foreign_key c || negb (bool_decide (k ∈ F)).
Proof.
  intros HA. unfold skip_field. rewrite HA.
  rewrite bool_decide_false; [done|].
  intros ->. by rewrite lookup_empty in HA.
Qed.

Lemma has_foreign_key_spec (c : Column) :
  has_foreign_key c = true ↔ is_foreign_key c.
Proof.
  unfold has_foreign_key, is_foreign_key.
  rewrite bool_decide_eq_true, list_elem_of_fmap, Exists_exists.
  split; intros (fk & Hfk & Hin); by exists fk.
Qed.

Lemma plain_column_spec (c : Column) :
  negb (primary_key c) && negb (has_foreign_key c)
  ↔ primary_key c = false ∧ ¬ is_foreign_key c.
Proof.
  rewrite <- has_foreign_key_spec.
  destruct (primary_key c), (has_foreign_key c); cbn;
    intuition (discriminate || auto).
Qed.

Lemma selected_keys_filter (d : gmap string (list string)) A F
    (cols : list (string * Column)) :
  d !! A = Some F →
  (filter (λ kc, negb (skip_field (Some d) A kc.1 kc.2)) cols).*1
  = filter (λ k, k ∈ F)
      (filter (λ kc, negb (primary_key kc.2)
                     && negb (has_foreign_key kc.2)) cols).*1.
Proof.
  intros HA. induction cols as [|[k c] cols IH]; [done|].
  rewrite !filter_cons. cbn [fst snd].
  rewrite (skip_field_selected _ _ _ _ _ HA).
  destruct (primary_key c), (has_foreign_key c); cbn; try done.
  destruct (decide (k ∈ F)) as [Hin|Hin];
    [rewrite (bool_decide_true _ Hin)|rewrite (bool_decide_false _ Hin)];
    cbn; repeat case_decide; try done; cbn; rewrite ?filter_cons;
    repeat case_decide; try done; cbn; by rewrite ?IH.
Qed.

Lemma selected_keys (d : gmap string (list string)) A F
    (cols : list (string * Column)) :
  d !! A = Some F →
  (filter (λ kc, negb (skip_field (Some d) A kc.1 kc.2)) cols).*1
  = filter (λ k, k ∈ F)
      (filter (λ kc, primary_key kc.2 = false ∧ ¬ is_foreign_key kc.2)
              cols).*1.
Proof.
  intros HA. rewrite (selected_keys_filter d A F cols HA). do 2 f_equal.
  apply list_filter_iff. intros [k c]. apply plain_column_spec.
Qed.

(** C4: when the alias [A] of a type is present in [fields] with the
    field list [F], [build_attributes] succeeds and the keys of the
    attributes object are exactly the plain (non-primary-key,
    non-foreign-key) columns of the type that [F] names, in column
    order; a key is emitted if and only if it lies in that
    intersection. *)
Theorem build_attributes_narrowing (self : JSONMapping) (T : cls)
    (A : string) (d : gmap string (list string)) (F : list string) :
  inversed_get self T = Ok A →
  d !! A = Some F →
  ∃ attrs,
    build_attributes self T (Some d) = Ok attrs
    ∧ object_keys attrs = s <$> filter (λ k, k ∈ F) (plain_columns T)
    ∧ ∀ k, s k ∈ object_keys attrs ↔ k ∈ F ∧ k ∈ plain_columns T.
Proof.
  intros HT HA. unfold build_attributes. rewrite HT. cbn.
  eexists. split; [reflexivity|].
  assert (Hkeys :
    object_keys
      (concat ((λ kc : string * Column, [s kc.1; ColumnE kc.2]) <$>
         filter (λ kc, negb (skip_field (Some d) A kc.1 kc.2))
                (columns (inspect T))))
    = s <$> filter (λ k, k ∈ F) (plain_columns T)).
  { rewrite (object_keys_pairs (λ kc, s kc.1) (λ kc, ColumnE kc.2)).
    unfold plain_columns. rewrite <- (selected_keys d A F _ HA).
    by rewrite <- list_fmap_compose. }
  split; [exact Hkeys|].
  intros k. rewrite Hkeys. rewrite list_elem_of_fmap. split.
  - intros (k' & E & Hin). apply (inj s) in E. subst k'.
    by apply list_elem_of_filter in Hin.
  - intros [HF Hp]. exists k. split; [done|].
    by apply list_elem_of_filter.
Qed.

Lemma build_attributes_keys (self : JSONMapping) (T : cls)
    (fields : fields_t) (attrs : list expr) :
  build_attributes self T fields = Ok attrs →
  ∃ A, inversed_get self T = Ok A
    ∧ object_keys attrs
      = s <$> (filter (λ kc, negb (skip_field fields A kc.1 kc.2))
                      (columns (inspect T))).*1.
Proof.
  unfold build_attributes. destruct (inversed_get self T) as [A|e]; [|done].
  cbn. intros [= <-]. exists A. split; [done|].
  rewrite (object_keys_pairs (λ kc, s kc.1) (λ kc, ColumnE kc.2)).
  by rewrite <- list_fmap_compose.
Qed.

(** C7, as the code has it: a selected name that is not a column of
    the target type is left out of the attributes object; building
    does not fail, and the name is not among the emitted keys (so it
    is not emitted with a null value either). *)
Theorem build_attributes_absent_field (self : JSONMapping) (T : cls)
    (A : string) (fields : fields_t) (name : string) :
  inversed_get self T = Ok A →
  name ∉ (columns (inspect T)).*1 →
  ∃ attrs,
    build_attributes self T fields = Ok attrs
    ∧ s name ∉ object_keys attrs.
Proof.
  intros HT Hname.
  destruct (build_attributes self T fields) as [attrs|e] eqn:E.
  - exists attrs. split; [done|].
    destruct (build_attributes_keys _ _ _ _ E) as (A' & _ & ->).
    intros (k & Ek & Hin)%list_elem_of_fmap. apply (inj s) in Ek.
    subst k. apply Hname.
    apply list_elem_of_fmap in Hin as (kc & -> & Hin).
    apply list_elem_of_filter in Hin as [_ Hin].
    apply list_elem_of_fmap. by exists kc.
  - unfold build_attributes in E. rewrite HT in E. done.
Qed.

(** ** Identity and type *)

(** C5, as the code has it: for a registered type, [build_id_and_type]
    takes no selection and reads the attribute named [id], whatever it
    is: when the type has a column or a relationship of that name it
    returns the pair of that attribute and the registered alias, be the
    attribute the primary key or not; when the type has no attribute
    named [id] it raises [AttributeError], whatever its primary key. *)
Theorem build_id_and_type_reads_id (self : JSONMapping) (T : cls)
    (a : string) :
  inversed_get self T = Ok a →
  build_id_and_type self T
  = if decide ("id" ∈ (columns (inspect T)).*1
               ∨ "id" ∈ (relationships (inspect T)).*1)
    then Ok [s "id"; Attr (Raw T) "id"; s "type"; s a]
    else Raise (AttributeError T "id").
Proof.
  intros HT. unfold build_id_and_type, getattr, has_attr. rewrite HT. cbn.
  destruct (decide ("id" ∈ (columns (inspect T)).*1
                    ∨ "id" ∈ (relationships (inspect T)).*1))
    as [[Hcol|Hrel]|Hnone].
  - by rewrite (bool_decide_true _ Hcol).
  - by rewrite (bool_decide_true _ Hrel), orb_true_r.
  - rewrite !bool_decide_false by tauto. done.
Qed.

(** ** Relationships *)

Ltac unfold_build :=
  unfold mbind, build_bind, bind, mret, build_ret, ret, lift, raise in *.

Lemma eval_related_object (a : string) (r : row) (f : from_ref) :
  eval_row r (Func "json_build_object"
                   [s "id"; Attr f "id"; s "type"; s a])
  = Some (related_object a r).
Proof.
  cbn [eval_row]. rewrite decide_True by done.
  change (eval_row r (s "id")) with (Some (JValue "id")).
  change (eval_row r (s "type")) with (Some (JValue "type")).
  change (eval_row r (s a)) with (JValue <$> literal (s a)).
  rewrite literal_s. reflexivity.
Qed.

Lemma mapM_total {A B} (f : A → option B) (g : A → B) (l : list A) :
  (∀ a, f a = Some (g a)) → mapM f l = Some (g <$> l).
Proof.
  intros Hf. induction l as [|a l IH]; [done|].
  cbn. rewrite Hf. cbn. rewrite IH. done.
Qed.

Lemma eval_scalar_identifier (many : bool) (c : cls) (a : string)
    (rows : list row) :
  eval_scalar (if many then Func "array_agg" [identifier_object c a]
               else identifier_object c a) rows
  = relationship_data many a rows.
Proof.
  unfold eval_scalar, relationship_data, identifier_object.
  destruct many; cbn [aggregated].
  - rewrite decide_True by done.
    destruct rows as [|row rows]; [done|].
    rewrite (mapM_total _ (related_object a));
      [done|intros; apply eval_related_object].
  - destruct rows as [|row [|row' rows]]; try done.
    apply eval_related_object.
Qed.

Lemma data_value_single_hop (entity : cls) (r : Relationship)
    (func : expr) (db : database) (outer : row) (rows : list row) :
  related_rows db entity outer r = Some rows →
  data_value db outer
    (Func "json_build_object"
       [s "data";
        AsScalar
          (Correlate
             (Filter
                match secondary r with
                | Some t =>
                    JoinOn (SelectFrom (SessionQuery func)
                              (Raw (mapper_class r))) t (secondaryjoin r)
                | None =>
                    SelectFrom (SessionQuery func) (Raw (mapper_class r))
                end (primaryjoin r))
             entity)])
  = eval_scalar func rows.
Proof.
  unfold data_value.
  rewrite decide_True by (split; [done|apply literal_s]).
  unfold eval_subquery, related_rows.
  destruct (secondary r) as [link|], (secondaryjoin r) as [on|];
    cbn [from_scopes from_tables selected mbind option_bind app];
    try done; case_decide as Hself; try done; intros [= <-].
  - rewrite bool_decide_false; [done|].
    rewrite !elem_of_cons, elem_of_nil. tauto.
  - rewrite bool_decide_false; [done|].
    rewrite !elem_of_cons, elem_of_nil. tauto.
  - rewrite bool_decide_false; [done|].
    rewrite !elem_of_cons, elem_of_nil. tauto.
Qed.

Lemma relationship_entry_data (self : JSONMapping) (entity : cls)
    (r : Relationship) (n n' : nat) (out : list expr) :
  relationship_entry self entity r n = (Ok out, n') →
  n' = n
  ∧ ∃ v, out = [s (key r); v] ∧ entry_of self entity r (s (key r), v).
Proof.
  unfold relationship_entry, build_id_and_type, getattr, select_aggregate.
  destruct (inversed_get self (mapper_class r)) as [a|e] eqn:Ha; cbn;
    [|unfold_build; cbn; congruence].
  destruct (has_attr (mapper_class r) "id"); cbn;
    [|unfold_build; cbn; congruence].
  unfold_build. cbn.
  assert (Hquery : ∀ many : bool,
    session_query
      (if many
       then Func "array_agg"
              [Func "json_build_object"
                 [s "id"; Attr (Raw (mapper_class r)) "id"; s "type"; s a]]
       else Func "json_build_object"
              [s "id"; Attr (Raw (mapper_class r)) "id"; s "type"; s a])
    = Ok (SessionQuery
            (if many
             then Func "array_agg" [identifier_object (mapper_class r) a]
             else identifier_object (mapper_class r) a)))
    by (by intros []).
  rewrite Hquery. cbn. intros [= <- <-]. split; [done|].
  eexists. split; [reflexivity|]. split; [done|].
  eexists a, _. split; [done|]. split; [reflexivity|].
  split; [by destruct (secondary r)|].
  intros db outer rows Hrows. cbn [snd].
  rewrite (data_value_single_hop _ _ _ _ _ _ Hrows).
  apply eval_scalar_identifier.
Qed.

Lemma relationship_entries (self : JSONMapping) (entity : cls)
    (rels : list Relationship) (n n' : nat) (out : list expr) :
  for_each (relationship_entry self entity) rels n = (Ok out, n') →
  n' = n ∧ Forall2 (entry_of self entity) rels (object_members out).
Proof.
  revert n n' out. induction rels as [|r rels IH]; intros n n' out.
  - cbn. unfold_build. intros [= <- <-]. by split; [|constructor].
  - cbn [for_each]. unfold_build.
    destruct (relationship_entry self entity r n) as [[o|e] n1] eqn:Er;
      [|congruence].
    destruct (for_each (relationship_entry self entity) rels n1)
      as [[os|e] n2] eqn:Ers; [|congruence].
    intros [= <- <-].
    apply relationship_entry_data in Er as (-> & v & -> & Hentry).
    apply IH in Ers as [-> Hrest]. split; [done|].
    cbn. by constructor.
Qed.

(** C1, as the code has it: [build_relationships] emits one entry per
    selected name that is a declared relationship, in selection order,
    keyed by the relationship's name; its value is the object whose key
    ['data'] holds a scalar sub-query correlated to the entity.  The
    sub-query of a to-many relationship selects [array_agg] of the
    identifier object of its target, that of a to-one relationship the
    identifier object itself.  For a relationship whose target is mapped
    to another table than the entity's own, in every database and for
    every row of the entity, the value under ['data'] is, to-many, the
    list of the identifier objects of the rows the relationship relates
    to that row when there is at least one and NULL when there is none,
    and to-one, the identifier object of the related row, or NULL when
    there is none. *)
Theorem relationship_data_cardinality (self : JSONMapping) (entity : cls)
    (fields : fields_t) (n n' : nat) (out : list expr) :
  build_relationships self entity fields n = (Ok out, n') →
  ∃ A names,
    inversed_get self entity = Ok A
    ∧ fields_getitem fields A = Ok names
    ∧ Forall2 (entry_of self entity)
        (omap (λ field, lookup_key field (relationships (inspect entity)))
              names)
        (object_members out).
Proof.
  unfold build_relationships. unfold_build.
  destruct (inversed_get self entity) as [A|e] eqn:EA; [|congruence].
  destruct (fields_getitem fields A) as [names|e] eqn:EF; [|congruence].
  intros Hloop. exists A, names. split; [done|]. split; [done|].
  by apply relationship_entries in Hloop as [_ Hall].
Qed.

(** ** Fields the builders cannot tell apart *)

Lemma filter_ext_in {A} (P Q : A → Prop) `{!∀ a, Decision (P a)}
    `{!∀ a, Decision (Q a)} (l : list A) :
  (∀ a, a ∈ l → P a ↔ Q a) → filter P l = filter Q l.
Proof.
  induction l as [|a l IH]; intros HPQ; [done|].
  rewrite !filter_cons.
  assert (HPQa := HPQ a (list_elem_of_here _ _)).
  rewrite IH by (intros b Hb; apply HPQ; by constructor).
  destruct (decide (P a)), (decide (Q a)); tauto.
Qed.

Section Agree.
Context (self : JSONMapping) (d1 d2 : gmap string (list string)).
Hypothesis Hagree : fields_agree self d1 d2.

Lemma agree_contains (c : cls) (a : string) :
  inversed_get self c = Ok a →
  bool_decide (is_Some (d1 !! a)) = bool_decide (is_Some (d2 !! a)).
Proof.
  intros Hc. specialize (Hagree c a Hc).
  destruct (d1 !! a), (d2 !! a); try done.
Qed.

Lemma agree_fields_and_has (c : cls) (a : string) :
  inversed_get self c = Ok a →
  fields_and_has (Some d1) a = fields_and_has (Some d2) a.
Proof.
  intros Hc. specialize (Hagree c a Hc). unfold fields_and_has.
  destruct (d1 !! a) eqn:E1, (d2 !! a) eqn:E2; try done.
  - assert (d1 ≠ ∅) by (intros ->; by rewrite lookup_empty in E1).
    assert (d2 ≠ ∅) by (intros ->; by rewrite lookup_empty in E2).
    rewrite (bool_decide_false (d1 = ∅)), (bool_decide_false (d2 = ∅))
      by done.
    by rewrite !bool_decide_true by eauto.
  - rewrite !(bool_decide_false (is_Some None)) by by intros [??].
    by rewrite !andb_false_r.
Qed.

Lemma agree_skip_field (c : cls) (a : string) (k : string)
    (column : Column) :
  inversed_get self c = Ok a →
  k ∈ (columns (inspect c)).*1 →
  skip_field (Some d1) a k column = skip_field (Some d2) a k column.
Proof.
  intros Hc Hk. specialize (Hagree c a Hc). unfold skip_field.
  destruct (d1 !! a) as [F1|] eqn:E1, (d2 !! a) as [F2|] eqn:E2;
    try done.
  - destruct Hagree as [Hcols _].
    assert (d1 ≠ ∅) by (intros ->; by rewrite lookup_empty in E1).
    assert (d2 ≠ ∅) by (intros ->; by rewrite lookup_empty in E2).
    rewrite (bool_decide_false (d1 = ∅)), (bool_decide_false (d2 = ∅))
      by done.
    by rewrite (bool_decide_ext _ _ (Hcols k Hk)).
  - by rewrite !andb_false_r.
Qed.

Lemma build_attributes_agree (c : cls) :
  build_attributes self c (Some d1) = build_attributes self c (Some d2).
Proof.
  unfold build_attributes.
  destruct (inversed_get self c) as [a|e] eqn:Hc; [|done]. cbn.
  do 3 f_equal. apply filter_ext_in. intros [k column] Hin. cbn.
  rewrite (agree_skip_field c a k column Hc); [done|].
  apply list_elem_of_fmap. by exists (k, column).
Qed.

Lemma build_relationships_agree (c : cls) (n : nat) :
  build_relationships self c (Some d1) n
  = build_relationships self c (Some d2) n.
Proof.
  unfold build_relationships. unfold_build.
  destruct (inversed_get self c) as [a|e] eqn:Hc; [|done].
  specialize (Hagree c a Hc). unfold fields_getitem.
  destruct (d1 !! a) as [F1|], (d2 !! a) as [F2|]; try done.
  destruct Hagree as [_ ->]. done.
Qed.

Lemma build_data_agree (c : cls) (include : option (list string))
    (n : nat) :
  build_data self c (Some d1) include n
  = build_data self c (Some d2) include n.
Proof.
  unfold build_data. unfold_build.
  destruct (inversed_get self c) as [a|e] eqn:Hc; [|done].
  destruct (build_id_and_type self c) as [idt|e]; [|done].
  rewrite (agree_fields_and_has c a Hc).
  destruct (fields_and_has (Some d2) a); [|done].
  unfold build_attrs_and_relationships. unfold_build.
  rewrite build_attributes_agree.
  destruct (build_attributes self c (Some d2)) as [attrs|e]; [|done].
  by rewrite build_relationships_agree.
Qed.

Lemma included_select_agree (entity : cls) (rels : list Relationship)
    (ir : nat * Relationship) (n : nat) :
  included_select self entity (Some d1) rels ir n
  = included_select self entity (Some d2) rels ir n.
Proof.
  unfold included_select. unfold_build.
  destruct (inversed_get self (mapper_class ir.2)) as [a|e] eqn:Hc;
    [|done].
  destruct (build_id_and_type self (mapper_class ir.2)) as [idt|e];
    [|done].
  cbn. rewrite (agree_contains _ a Hc).
  destruct (bool_decide (is_Some (d2 !! a))); [|done].
  by rewrite build_attributes_agree.
Qed.

Lemma for_each_ext {A B} (f g : A → Build (list B)) (l : list A)
    (n : nat) :
  (∀ a m, f a m = g a m) → for_each f l n = for_each g l n.
Proof.
  intros Hfg. revert n. induction l as [|a l IH]; intros n; [done|].
  cbn [for_each]. unfold_build. rewrite Hfg.
  destruct (g a n) as [[out|e] n1]; [|done]. by rewrite IH.
Qed.

Lemma build_included_agree (entity : cls)
    (include : option (list string)) (n : nat) :
  build_included self entity (Some d1) include n
  = build_included self entity (Some d2) include n.
Proof.
  unfold build_included. destruct include as [[|path paths]|]; try done.
  unfold_build.
  rewrite (for_each_ext (included_path self entity (Some d1))
             (included_path self entity (Some d2))); [done|].
  intros p m. unfold included_path. unfold_build.
  destruct (path_to_relationships p entity) as [rels|e]; [|done].
  apply for_each_ext. intros ir m'. apply included_select_agree.
Qed.

Lemma select_agree (entity : cls) (include : option (list string))
    (n : nat) :
  select self entity (Some d1) include n
  = select self entity (Some d2) include n.
Proof.
  unfold select. unfold_build. rewrite build_data_agree.
  destruct (build_data self entity (Some d2) include n)
    as [[args|e] n1]; [|done].
  by rewrite build_included_agree.
Qed.
End Agree.

(** ** The alias registry *)

Lemma inverse_items_lookup (items : list (string * cls)) (c : cls)
    (a : string) :
  inverse_items items !! c = Some a → (a, c) ∈ items.
Proof.
  unfold inverse_items.
  assert (Hgen : ∀ acc : gmap cls string,
    foldl (λ d kv, <[kv.2 := kv.1]> d) acc items !! c = Some a →
    acc !! c = Some a ∨ (a, c) ∈ items).
  { induction items as [|[a' c'] items IH]; intros acc; cbn; [by left|].
    intros [Hacc|Hin]%IH; [|right; by constructor].
    destruct (decide (c' = c)) as [->|Hne].
    - rewrite lookup_insert_eq in Hacc. injection Hacc as ->.
      right. constructor.
    - rewrite lookup_insert_ne in Hacc by done. by left. }
  intros [Hempty|Hin]%Hgen; [|done]. by rewrite lookup_empty in Hempty.
Qed.

Lemma registered_alias (items : list (string * cls)) (c : cls)
    (a : string) :
  inversed_get (JSONMapping_init (Some items)) c = Ok a →
  (a, c) ∈ items.
Proof.
  unfold inversed_get, JSONMapping_init. cbn.
  destruct items as [|item items]; [done|].
  destruct (inverse_items (item :: items) !! c) as [a'|] eqn:E; [|done].
  intros [= ->]. by apply inverse_items_lookup.
Qed.

Lemma lookup_key_None {A} (k : string) (l : list (string * A)) :
  k ∉ l.*1 → lookup_key k l = None.
Proof.
  induction l as [|[k' a] l IH]; [done|]. cbn.
  intros Hk. rewrite decide_False; [|intros ->; apply Hk; constructor].
  apply IH. intros Hin. apply Hk. by constructor.
Qed.

Lemma NoDup_fst_functional {A B} (l : list (A * B)) (x : A)
    (y1 y2 : B) :
  NoDup l.*1 → (x, y1) ∈ l → (x, y2) ∈ l → y1 = y2.
Proof.
  induction l as [|[a b] l IH]; [by intros _ ?%not_elem_of_nil|].
  cbn. intros [Ha Hl]%NoDup_cons.
  intros [[= -> ->]|H1]%elem_of_cons [[= ->]|H2]%elem_of_cons; try done.
  - destruct Ha. apply list_elem_of_fmap. by exists (a, y2).
  - subst. destruct Ha. apply list_elem_of_fmap. by exists (a, y1).
  - by apply IH.
Qed.

(** C2, as the code has it: an alias key of [fields] that the mapping
    never registered is ignored; [select] does for [fields] exactly
    what it does for [fields] without that key, and raises nothing on
    its account. *)
Theorem unknown_alias_ignored (items : list (string * cls))
    (entity : cls) (d : gmap string (list string))
    (include : option (list string)) (bogus : string) (n : nat) :
  bogus ∉ items.*1 →
  select (JSONMapping_init (Some items)) entity (Some d) include n
  = select (JSONMapping_init (Some items)) entity
           (Some (delete bogus d)) include n.
Proof.
  intros Hbogus. apply select_agree. intros c a Hc.
  assert (a ≠ bogus) as Hne.
  { intros ->. apply Hbogus. apply registered_alias in Hc.
    apply list_elem_of_fmap. by exists (bogus, c). }
  rewrite lookup_delete_ne by done.
  by destruct (d !! a).
Qed.

(** C6, as the code has it: a name in the field list of the root's
    alias that is neither a column nor a declared relationship of the
    root type is silently left out; [select] does exactly what it
    does for the field list without that name, and raises nothing on
    its account. *)
Theorem undeclared_field_omitted (items : list (string * cls))
    (entity : cls) (A : string) (d : gmap string (list string))
    (F : list string) (x : string) (include : option (list string))
    (n : nat) :
  NoDup items.*1 →
  inversed_get (JSONMapping_init (Some items)) entity = Ok A →
  x ∉ (columns (inspect entity)).*1 →
  x ∉ (relationships (inspect entity)).*1 →
  select (JSONMapping_init (Some items)) entity
         (Some (<[A := F]> d)) include n
  = select (JSONMapping_init (Some items)) entity
           (Some (<[A := filter (λ f, f ≠ x) F]> d)) include n.
Proof.
  intros Hdict Hroot Hcol Hrel. apply select_agree. intros c a Hc.
  destruct (decide (a = A)) as [->|Hne].
  - assert (c = entity) as ->.
    { apply registered_alias in Hc, Hroot.
      by apply (NoDup_fst_functional items A). }
    rewrite !lookup_insert_eq. split.
    + intros k Hk. rewrite list_elem_of_filter.
      split; [|tauto]. intros HF. split; [|done].
      intros ->. by apply Hcol.
    + clear -Hrel. induction F as [|f F IH]; [done|].
      rewrite filter_cons. destruct (decide (f ≠ x)) as [Hf|Hf].
      * cbn. by rewrite IH.
      * apply dec_stable in Hf as ->. cbn.
        by rewrite (lookup_key_None _ _ Hrel).
  - rewrite !lookup_insert_ne by done. by destruct (d !! a).
Qed.

(** ** Aliases of the aggregate query *)

Lemma query_join_ok (q q' : query) (f : from_ref) (name : string)
    (a : bool) :
  query_join q f name a = Ok q' →
  q' = Join q f name a
  ∧ ∃ r, lookup_key name (relationships (inspect (ref_class f))) = Some r
         ∧ (a = false → is_class f (mapper_class r) = false).
Proof.
  unfold query_join.
  destruct (lookup_key name _) as [r|]; [|done].
  destruct (negb a && is_class f (mapper_class r)) eqn:Esame; [done|].
  intros [= <-]. split; [done|]. exists r. split; [done|].
  intros ->. by destruct (is_class f (mapper_class r)).
Qed.

Lemma session_query_ok (e : expr) (q : query) :
  session_query e = Ok q → q = SessionQuery e.
Proof. destruct e; cbn; congruence. Qed.

Lemma join_hops_joins (rels : list Relationship) (q q' : query)
    (a a' : from_ref) :
  join_hops rels q a = Ok (q', a') →
  (∃ js, joins q' = joins q ++ js ∧ length js = length rels)
  ∧ a' = match last rels with
         | Some r => Raw (mapper_class r)
         | None => a
         end.
Proof.
  revert q a. induction rels as [|r rels IH]; intros q a; cbn [join_hops].
  - intros [= <- <-]. split; [|done]. exists []. by rewrite app_nil_r.
  - unfold getattr. destruct (has_attr (ref_class a) (key r)); [|done].
    destruct (query_join q a (key r) true) as [q1|e] eqn:Ejoin; [|done].
    apply query_join_ok in Ejoin as [-> _].
    intros [(js & Hjs & Hlen) Ha]%IH. split.
    + exists ((a, key r, true) :: js). cbn. rewrite Hjs. cbn.
      by rewrite <- app_assoc, Hlen.
    + rewrite Ha. destruct rels as [|r' rels]; [done|].
      rewrite last_cons_cons.
      destruct (last (r' :: rels)) eqn:Elast; [done|].
      by apply last_None in Elast.
Qed.

(** On a chain of two relationships the only join is made from the
    alias object of the first hop. *)
Lemma select_aggregate_two_hops (agg : expr) (r0 r1 : Relationship)
    (n n' : nat) (q : query) :
  select_aggregate agg [r0; r1] n = (Ok q, n') →
  n' = S n
  ∧ joins q = [(Aliased n (mapper_class r0), key r0, false)]
  ∧ fresh_alias_per_hop q = true.
Proof.
  unfold select_aggregate, getattr. unfold_build.
  rewrite bool_decide_true by (cbn; lia). cbn.
  destruct (session_query agg) as [q0|e] eqn:Eagg; cbn; [|done].
  apply session_query_ok in Eagg as ->.
  destruct (has_attr (mapper_class r0) (key r0)); [|done]. cbn.
  destruct (query_join _ _ _ _) as [q1|e] eqn:Ejoin; cbn; [|done].
  apply query_join_ok in Ejoin as [-> _].
  destruct (secondary r1); intros [= <- <-]; done.
Qed.

(** On a longer chain the hop before the last is joined from the mapped
    class of the hop before it, without [aliased=True]: the aliases are
    not fresh per hop. *)
Lemma select_aggregate_deep_chain (agg : expr) (rels : list Relationship)
    (n n' : nat) (q : query) :
  2 < length rels →
  select_aggregate agg rels n = (Ok q, n') →
  n' = S n
  ∧ (∃ js r r', joins q = js ++ [(Raw (mapper_class r), key r', false)])
  ∧ fresh_alias_per_hop q = false.
Proof.
  intros Hlen. unfold select_aggregate. unfold_build.
  rewrite bool_decide_true by lia.
  destruct rels as [|r0 rels']; [done|]. unfold aliased.
  set (rels := r0 :: rels') in *.
  destruct (session_query agg) as [q0|e]; cbn -[lookup last rels]; [|done].
  destruct (join_hops _ _ _) as [[q1 a1]|e] eqn:Ehops; cbn -[lookup last];
    [|done].
  apply join_hops_joins in Ehops as [(js & Hjs & _) Ha1].
  destruct (last (take (length rels - 2) rels)) as [rp|] eqn:Elast.
  2: { apply last_None in Elast. apply (f_equal length) in Elast.
       rewrite length_take in Elast. cbn [length] in Elast. lia. }
  subst a1.
  match goal with
  | |- context [rels !! ?i] => destruct (rels !! i) as [r|]
  end; cbn -[last]; [|done].
  unfold getattr. cbn [ref_class].
  destruct (has_attr (mapper_class rp) (key r)); cbn -[last]; [|done].
  destruct (query_join _ _ _ _) as [q3|e] eqn:Ejoin; cbn -[last]; [|done].
  apply query_join_ok in Ejoin as [-> _].
  destruct (last rels) as [l|]; cbn; [|done].
  assert (∀ q2 : query,
    joins q2 = joins q1 ++ [(Raw (mapper_class rp), key r, false)] →
    (∃ js r r', joins q2 = js ++ [(Raw (mapper_class r), key r', false)])
    ∧ fresh_alias_per_hop q2 = false) as Hq2.
  { intros q2 Hq2. split; [by eauto|].
    unfold fresh_alias_per_hop. rewrite Hq2, forallb_app. cbn.
    by rewrite andb_false_r. }
  destruct (secondary l); intros [= <- <-]; (split; [lia|]);
    by apply Hq2.
Qed.

(** ** Alias identities *)

Lemma getattr_shift (k : nat) (f : from_ref) (name : string) :
  getattr (shift_ref k f) name
  = match getattr f name with
    | Ok (f', name') => Ok (shift_ref k f', name')
    | Raise e => Raise e
    end.
Proof.
  unfold getattr.
  assert (ref_class (shift_ref k f) = ref_class f) as -> by by destruct f.
  by destruct (has_attr (ref_class f) name).
Qed.

Lemma session_query_shift (k : nat) (e : expr) :
  session_query (shift_expr k e)
  = match session_query e with
    | Ok q => Ok (shift_query k q)
    | Raise e => Raise e
    end.
Proof. by destruct e. Qed.

Lemma query_join_shift (k : nat) (q : query) (f : from_ref)
    (name : string) (a : bool) :
  query_join (shift_query k q) (shift_ref k f) name a
  = match query_join q f name a with
    | Ok q' => Ok (shift_query k q')
    | Raise e => Raise e
    end.
Proof.
  unfold query_join.
  assert (ref_class (shift_ref k f) = ref_class f) as -> by by destruct f.
  destruct (lookup_key name _) as [r|]; [|done].
  assert (is_class (shift_ref k f) (mapper_class r)
          = is_class f (mapper_class r)) as -> by by destruct f.
  by destruct (negb a && is_class f (mapper_class r)).
Qed.

Lemma join_hops_shift (k : nat) (rels : list Relationship) (q : query)
    (a : from_ref) :
  join_hops rels (shift_query k q) (shift_ref k a)
  = match join_hops rels q a with
    | Ok (q', a') => Ok (shift_query k q', shift_ref k a')
    | Raise e => Raise e
    end.
Proof.
  revert q a. induction rels as [|r rels IH]; intros q a; [done|].
  cbn [join_hops]. rewrite getattr_shift.
  destruct (getattr a (key r)) as [[f name]|e]; [|done].
  rewrite query_join_shift.
  destruct (query_join q f name true) as [q1|e]; [|done].
  apply (IH q1 (Raw (mapper_class r))).
Qed.

Lemma select_aggregate_shift (k : nat) (agg : expr)
    (rels : list Relationship) (n : nat) :
  select_aggregate (shift_expr k agg) rels (k + n)
  = shift_outcome (shift_query k) k (select_aggregate agg rels n).
Proof.
  unfold select_aggregate, shift_outcome. unfold_build.
  destruct (bool_decide (1 < length rels)).
  - destruct rels as [|r0 rels']; [done|]. unfold aliased.
    set (rels := r0 :: rels').
    rewrite session_query_shift.
    destruct (session_query agg) as [q0|e]; cbn -[lookup last rels];
      [|f_equal; lia].
    pose proof (join_hops_shift k (take (length rels - 2) rels)
                  (SelectFrom q0 (Aliased n (mapper_class r0)))
                  (Aliased n (mapper_class r0))) as Hj.
    cbn [shift_query shift_ref] in Hj. rewrite Hj. clear Hj.
    destruct (join_hops _ _ _) as [[q a]|e]; cbn -[lookup last];
      [|f_equal; lia].
    match goal with
    | |- context [rels !! ?i] => destruct (rels !! i) as [r|]
    end; cbn -[last]; [|f_equal; lia].
    rewrite getattr_shift.
    destruct (getattr a (key r)) as [[f name]|e]; cbn -[last];
      [|f_equal; lia].
    rewrite query_join_shift.
    destruct (query_join q f name false) as [q1|e]; cbn -[last];
      [|f_equal; lia].
    destruct (last rels) as [l|]; cbn; [|f_equal; lia].
    destruct (secondary l); cbn; f_equal; lia.
  - destruct rels as [|r0 rels']; [done|]. cbn -[last].
    rewrite session_query_shift.
    destruct (session_query agg) as [q0|e]; cbn -[last]; [|done].
    destruct (last (r0 :: rels')) as [l|]; cbn; [|done].
    by destruct (secondary l).
Qed.

Lemma build_id_and_type_alias_free (k : nat) (self : JSONMapping)
    (c : cls) (idt : list expr) :
  build_id_and_type self c = Ok idt → List.map (shift_expr k) idt = idt.
Proof.
  unfold build_id_and_type, getattr.
  destruct (inversed_get self c) as [a|e]; [|done]. cbn.
  destruct (has_attr c "id"); [|done]. cbn. by intros [= <-].
Qed.

Lemma build_attributes_alias_free (k : nat) (self : JSONMapping)
    (c : cls) (fields : fields_t) (attrs : list expr) :
  build_attributes self c fields = Ok attrs →
  List.map (shift_expr k) attrs = attrs.
Proof.
  unfold build_attributes.
  destruct (inversed_get self c) as [a|e]; [|done]. cbn. intros [= <-].
  induction (filter _ _) as [|kc l IH]; [done|].
  cbn. by rewrite IH.
Qed.

Lemma for_each_shift {A B} (f : B → B) (k : nat)
    (body : A → Build (list B)) (l : list A) (n : nat) :
  (∀ a m, body a (k + m) = shift_outcome (List.map f) k (body a m)) →
  for_each body l (k + n)
  = shift_outcome (List.map f) k (for_each body l n).
Proof.
  intros Hbody. revert n. induction l as [|a l IH]; intros n; [done|].
  cbn [for_each]. unfold_build. rewrite Hbody. unfold shift_outcome at 1.
  destruct (body a n) as [[out|e] n1]; cbn [fst snd]; [|done].
  rewrite IH. unfold shift_outcome.
  destruct (for_each body l n1) as [[outs|e] n2]; cbn [fst snd]; [|done].
  by rewrite List.map_app.
Qed.

Lemma relationship_entry_shift (k : nat) (self : JSONMapping)
    (entity : cls) (r : Relationship) (n : nat) :
  relationship_entry self entity r (k + n)
  = shift_outcome (List.map (shift_expr k)) k
      (relationship_entry self entity r n).
Proof.
  unfold relationship_entry. unfold_build.
  destruct (build_id_and_type self (mapper_class r)) as [idt|e] eqn:Eidt;
    [|done].
  set (func := if uselist r then _ else _).
  assert (shift_expr k func = func) as Hfunc.
  { subst func. destruct (uselist r); cbn;
      by rewrite (build_id_and_type_alias_free k _ _ _ Eidt). }
  rewrite <- Hfunc at 1. rewrite select_aggregate_shift.
  unfold shift_outcome.
  by destruct (select_aggregate func [r] n) as [[q|e] n1].
Qed.

Lemma build_relationships_shift (k : nat) (self : JSONMapping)
    (entity : cls) (fields : fields_t) (n : nat) :
  build_relationships self entity fields (k + n)
  = shift_outcome (List.map (shift_expr k)) k
      (build_relationships self entity fields n).
Proof.
  unfold build_relationships. unfold_build.
  destruct (inversed_get self entity) as [a|e]; [|done].
  destruct (fields_getitem fields a) as [names|e]; [|done].
  apply for_each_shift. intros r m. apply relationship_entry_shift.
Qed.

Lemma build_data_shift (k : nat) (self : JSONMapping) (entity : cls)
    (fields : fields_t) (include : option (list string)) (n : nat) :
  build_data self entity fields include (k + n)
  = shift_outcome (List.map (shift_expr k)) k
      (build_data self entity fields include n).
Proof.
  unfold build_data. unfold_build.
  destruct (inversed_get self entity) as [a|e]; [|done].
  destruct (build_id_and_type self entity) as [idt|e] eqn:Eidt; [|done].
  apply (build_id_and_type_alias_free k) in Eidt.
  destruct (fields_and_has fields a).
  - unfold build_attrs_and_relationships. unfold_build.
    destruct (build_attributes self entity fields) as [attrs|e] eqn:Eattrs;
      [|done].
    apply (build_attributes_alias_free k) in Eattrs.
    rewrite build_relationships_shift. unfold shift_outcome.
    destruct (build_relationships self entity fields n)
      as [[rels|e] n1]; cbn [fst snd]; [|done].
    cbn. rewrite !List.map_app, Eidt.
    destruct attrs as [|a0 attrs], rels as [|r0 rels]; cbn in *; try done.
    + by rewrite Eattrs.
    + by rewrite Eattrs.
  - unfold shift_outcome. cbn. by rewrite Eidt.
Qed.

Lemma included_select_shift (k : nat) (self : JSONMapping) (entity : cls)
    (fields : fields_t) (rels : list Relationship)
    (ir : nat * Relationship) (n : nat) :
  included_select self entity fields rels ir (k + n)
  = shift_outcome (List.map (shift_query k)) k
      (included_select self entity fields rels ir n).
Proof.
  unfold included_select. unfold_build.
  destruct (inversed_get self (mapper_class ir.2)) as [a|e]; [|done].
  destruct (build_id_and_type self (mapper_class ir.2)) as [idt|e] eqn:Eidt;
    [|done].
  apply (build_id_and_type_alias_free k) in Eidt.
  destruct (fields_contains fields a) as [[|]|e]; [| |done].
  - destruct (build_attributes self (mapper_class ir.2) fields)
      as [attrs|e] eqn:Eattrs; [|done].
    apply (build_attributes_alias_free k) in Eattrs.
    set (func := Label _ _).
    assert (shift_expr k func = func) as Hfunc.
    { subst func. cbn. rewrite List.map_app, Eidt. cbn.
      by rewrite Eattrs. }
    rewrite <- Hfunc at 1. rewrite select_aggregate_shift.
    unfold shift_outcome.
    by destruct (select_aggregate func _ n) as [[q|e] n1].
  - set (func := Label _ _).
    assert (shift_expr k func = func) as Hfunc.
    { subst func. cbn. by rewrite Eidt. }
    rewrite <- Hfunc at 1. rewrite select_aggregate_shift.
    unfold shift_outcome.
    by destruct (select_aggregate func _ n) as [[q|e] n1].
Qed.

Lemma included_path_shift (k : nat) (self : JSONMapping) (entity : cls)
    (fields : fields_t) (path : string) (n : nat) :
  included_path self entity fields path (k + n)
  = shift_outcome (List.map (shift_query k)) k
      (included_path self entity fields path n).
Proof.
  unfold included_path. unfold_build.
  destruct (path_to_relationships path entity) as [rels|e]; [|done].
  apply for_each_shift. intros ir m. apply included_select_shift.
Qed.

Lemma foldl_Union_shift (k : nat) (selects : list query) (q : query) :
  foldl Union (shift_query k q) (List.map (shift_query k) selects)
  = shift_query k (foldl Union q selects).
Proof.
  revert q. induction selects as [|q' selects IH]; intros q; [done|].
  cbn. apply (IH (Union q q')).
Qed.

Lemma reduce_Union_shift (k : nat) (selects : list query) :
  reduce Union (List.map (shift_query k) selects)
  = match reduce Union selects with
    | Ok q => Ok (shift_query k q)
    | Raise e => Raise e
    end.
Proof.
  destruct selects as [|q selects]; [done|].
  cbn. by rewrite foldl_Union_shift.
Qed.

Lemma build_included_shift (k : nat) (self : JSONMapping) (entity : cls)
    (fields : fields_t) (include : option (list string)) (n : nat) :
  build_included self entity fields include (k + n)
  = shift_outcome (List.map (shift_expr k)) k
      (build_included self entity fields include n).
Proof.
  unfold build_included. destruct include as [[|path paths]|]; try done.
  unfold_build.
  rewrite (for_each_shift (shift_query k) k);
    [|intros p m; apply included_path_shift].
  unfold shift_outcome.
  destruct (for_each _ (path :: paths) n) as [[selects|e] n1];
    cbn [fst snd]; [|done].
  rewrite reduce_Union_shift.
  by destruct (reduce Union selects) as [union|e].
Qed.

Lemma select_shift (k : nat) (self : JSONMapping) (entity : cls)
    (fields : fields_t) (include : option (list string)) (n : nat) :
  select self entity fields include (k + n)
  = shift_outcome (shift_query k) k
      (select self entity fields include n).
Proof.
  unfold select. unfold_build. rewrite build_data_shift.
  unfold shift_outcome at 1.
  destruct (build_data self entity fields include n) as [[args|e] n1];
    cbn [fst snd]; [|done].
  rewrite build_included_shift. unfold shift_outcome.
  destruct (build_included self entity fields include n1)
    as [[included|e] n2]; cbn [fst snd]; [|done].
  cbn. by rewrite List.map_app.
Qed.

(** C9: two successive invocations of [select] on the same
    [(rootType, fields, include)], the second starting in the state
    the first one left, either raise the same exception or return
    queries of the same structure: the second is the first with the
    identities of its alias objects renumbered, and nothing else
    differs. *)
Theorem select_idempotent (self : JSONMapping) (entity : cls)
    (fields : fields_t) (include : option (list string)) (n : nat) :
  let first := select self entity fields include n in
  let second := select self entity fields include first.2 in
  match first.1, second.1 with
  | Ok q1, Ok q2 => same_structure q1 q2
  | Raise e1, Raise e2 => e1 = e2
  | _, _ => False
  end.
Proof.
  cbn zeta.
  pose proof (select_shift n self entity fields include 0) as H0.
  rewrite Nat.add_0_r in H0.
  set (m := (select self entity fields include 0).2).
  assert ((select self entity fields include n).2 = m + n) as ->.
  { rewrite H0. unfold shift_outcome. cbn. lia. }
  rewrite (select_shift m). unfold shift_outcome. cbn [fst].
  destruct (select self entity fields include n) as [[q|e] n1];
    cbn [fst]; [|done].
  by exists m.
Qed.

(** ** Included resources *)




Lemma for_each_state {A B} (body : A → Build (list B)) (l : list A)
    (n : nat) :
  (∀ a m, (body a m).2 = m) → (for_each body l n).2 = n.
Proof.
  intros Hbody. revert n. induction l as [|a l IH]; intros n; [done|].
  cbn [for_each]. unfold_build. specialize (Hbody a n).
  destruct (body a n) as [[out|e] n1]; cbn in Hbody; subst n1; [|done].
  specialize (IH n). by destruct (for_each body l n) as [[outs|e] n2].
Qed.

Lemma relationship_entry_state (self : JSONMapping) (entity : cls)
    (r : Relationship) (n : nat) :
  (relationship_entry self entity r n).2 = n.
Proof.
  unfold relationship_entry. unfold_build.
  destruct (build_id_and_type self (mapper_class r)) as [idt|e]; [|done].
  unfold select_aggregate. unfold_build. cbn.
  destruct (session_query _) as [q|e]; [|done]. cbn.
  by destruct (secondary r).
Qed.

Lemma build_data_state (self : JSONMapping) (entity : cls)
    (fields : fields_t) (include : option (list string)) (n : nat) :
  (build_data self entity fields include n).2 = n.
Proof.
  unfold build_data. unfold_build.
  destruct (inversed_get self entity) as [a|e]; [|done].
  destruct (build_id_and_type self entity) as [idt|e]; [|done].
  destruct (fields_and_has fields a); [|done].
  unfold build_attrs_and_relationships. unfold_build.
  destruct (build_attributes self entity fields) as [attrs|e]; [|done].
  assert ((build_relationships self entity fields n).2 = n) as Hrel.
  { unfold build_relationships. unfold_build.
    destruct (inversed_get self entity) as [a'|e]; [|done].
    destruct (fields_getitem fields a') as [names|e]; [|done].
    apply for_each_state. intros r m. apply relationship_entry_state. }
  destruct (build_relationships self entity fields n) as [[rels|e] n1];
    cbn in Hrel; by subst n1.
Qed.

Lemma included_paths_unresolved (self : JSONMapping) (entity : cls)
    (fields : fields_t) (paths : list string) (n : nat) :
  (∀ p, p ∈ paths →
     path_to_relationships p entity = Ok []
     ∨ ∃ e, path_to_relationships p entity = Raise e) →
  for_each (included_path self entity fields) paths n
  = (match first_resolver_error entity paths with
     | Some e => Raise e
     | None => Ok []
     end, n).
Proof.
  induction paths as [|p paths IH]; intros Hall; [done|].
  cbn [for_each first_resolver_error]. unfold_build.
  unfold included_path at 1. unfold_build.
  destruct (Hall p) as [Hp|[e Hp]]; [constructor| |]; rewrite Hp; [|done].
  cbn [enumerate enumerate_from for_each]. unfold_build.
  rewrite IH by (intros p' Hin; apply Hall; by constructor).
  by destruct (first_resolver_error entity paths).
Qed.

(** The resolver as specified never resolves a path to an empty chain,
    so with it [reduce] is never reached with nothing to combine. *)
Lemma resolve_path_nonempty (catalog : cls → Mapper) (path : string)
    (c : cls) (rels : list Relationship) :
  resolve_path catalog path c = Ok rels → rels ≠ [].
Proof.
  unfold resolve_path.
  assert (∃ seg rest, split_dots "" path = seg :: rest) as (seg & rest & ->).
  { generalize "". induction path as [|a path IH]; intros acc; cbn.
    - by eauto.
    - destruct (decide (a = "."%char)); [by eauto|]. apply IH. }
  cbn. destruct (lookup_key seg (relationships (catalog c))); [|done].
  destruct (resolve_segments catalog rest _); cbn; [|done].
  by intros [= <-].
Qed.

(** * Further properties of the module *)

(** ** The alias registry of [JSONMapping.__init__] *)

Lemma inverse_items_untouched (items : list (string * cls))
    (acc : gmap cls string) (c : cls) :
  c ∉ items.*2 →
  foldl (λ d kv, <[kv.2 := kv.1]> d) acc items !! c = acc !! c.
Proof.
  revert acc. induction items as [|[a' c'] items IH]; intros acc; [done|].
  cbn. intros Hc. rewrite IH by (intros Hin; apply Hc; by constructor).
  apply lookup_insert_ne. intros ->. apply Hc. constructor.
Qed.

Lemma inverse_items_member (items : list (string * cls))
    (acc : gmap cls string) (a : string) (c : cls) :
  NoDup items.*2 → (a, c) ∈ items →
  foldl (λ d kv, <[kv.2 := kv.1]> d) acc items !! c = Some a.
Proof.
  revert acc. induction items as [|[a' c'] items IH]; intros acc;
    [by intros _ ?%not_elem_of_nil|].
  cbn. intros [Hc' Hnd]%NoDup_cons [[= -> ->]|Hin]%elem_of_cons.
  - rewrite inverse_items_untouched by done. apply lookup_insert_eq.
  - by apply IH.
Qed.

(** X1: when no type is registered under two aliases, the inverse
    registry built by [__init__] answers exactly the items of the
    mapping: [self.inversed[c]] is [a] if and only if [mapping[a]] is
    [c]. *)
Theorem registry_round_trip (items : list (string * cls)) (a : string)
    (c : cls) :
  NoDup items.*2 →
  inversed_get (JSONMapping_init (Some items)) c = Ok a ↔ (a, c) ∈ items.
Proof.
  intros Hnd. split; [apply registered_alias|].
  intros Hin. unfold inversed_get, JSONMapping_init. cbn.
  destruct items as [|item items]; [by apply not_elem_of_nil in Hin|].
  unfold inverse_items. by rewrite (inverse_items_member _ _ a c Hnd Hin).
Qed.

(** X2: a [JSONMapping] made without a mapping, as the module-level
    [json = JSONMapping()], or with an empty one, has no inverse
    registry, and [select] raises [TypeError] for every entity, fields
    and include. *)
Theorem select_without_mapping (m : option (list (string * cls)))
    (entity : cls) (fields : fields_t) (include : option (list string))
    (n : nat) :
  m = None ∨ m = Some [] →
  select (JSONMapping_init m) entity fields include n
  = (Raise (TypeError "'NoneType' object is not subscriptable"), n).
Proof. by intros [-> | ->]. Qed.

(** X3: [select] on a root type the mapping has no alias for raises
    [KeyError] naming the type, whatever the fields and the include
    list. *)
Theorem select_unregistered_root (self : JSONMapping)
    (registry : gmap cls string) (entity : cls) (fields : fields_t)
    (include : option (list string)) (n : nat) :
  inversed self = Some registry →
  registry !! entity = None →
  select self entity fields include n = (Raise (KeyError entity), n).
Proof.
  intros Hinv Hroot. unfold select, build_data, inversed_get. unfold_build.
  by rewrite Hinv, Hroot.
Qed.

Lemma build_attributes_ok (self : JSONMapping) (T : cls) (A : string)
    (fields : fields_t) :
  inversed_get self T = Ok A →
  build_attributes self T fields
  = Ok (concat ((λ kc : string * Column, [s kc.1; ColumnE kc.2]) <$>
          filter (λ kc, negb (skip_field fields A kc.1 kc.2))
                 (columns (inspect T)))).
Proof. intros HT. unfold build_attributes. by rewrite HT. Qed.

(** X4: selecting a relationship whose target type has no alias in the
    mapping makes [select] raise [KeyError] naming the target type: the
    first selected name that is a declared relationship decides. *)
Theorem select_unregistered_target (self : JSONMapping)
    (registry : gmap cls string) (entity : cls) (A : string)
    (d : gmap string (list string)) (F : list string) (r : Relationship)
    (rest : list Relationship) (include : option (list string)) (n : nat) :
  inversed self = Some registry →
  registry !! entity = Some A →
  has_attr entity "id" = true →
  d !! A = Some F →
  omap (λ field, lookup_key field (relationships (inspect entity))) F
  = r :: rest →
  registry !! mapper_class r = None →
  select self entity (Some d) include n
  = (Raise (KeyError (mapper_class r)), n).
Proof.
  intros Hinv Hroot Hid HA HF Htarget.
  assert (inversed_get self entity = Ok A) as HrootA
    by (unfold inversed_get; by rewrite Hinv, Hroot).
  assert (d ≠ ∅) by (intros ->; by rewrite lookup_empty in HA).
  unfold select, build_data, build_id_and_type, getattr. unfold_build.
  rewrite HrootA. cbn. rewrite Hid. cbn. rewrite HA.
  rewrite bool_decide_false, bool_decide_true by eauto. cbn.
  unfold build_attrs_and_relationships. unfold_build.
  rewrite (build_attributes_ok _ _ A) by done.
  unfold build_relationships. unfold_build. rewrite HrootA. cbn.
  rewrite HA, HF. cbn [for_each]. unfold_build.
  unfold relationship_entry, build_id_and_type, inversed_get. unfold_build.
  by rewrite Hinv, Htarget.
Qed.

(** ** Attributes *)

Lemma object_members_pairs {A} (k : A → expr) (v : A → expr) (l : list A) :
  object_members (concat ((λ a, [k a; v a]) <$> l)) = (λ a, (k a, v a)) <$> l.
Proof. induction l as [|a l IH]; cbn; [done|]. by rewrite IH. Qed.

(** X5: whatever the selection, every member of the attributes object
    is a column of the type under its own key, and that column is
    neither a primary key nor the parent of any foreign key of its
    table. *)
Theorem build_attributes_plain_columns (self : JSONMapping) (T : cls)
    (fields : fields_t) (attrs : list expr) :
  build_attributes self T fields = Ok attrs →
  ∀ kv, kv ∈ object_members attrs →
    ∃ k c, kv = (s k, ColumnE c)
           ∧ (k, c) ∈ columns (inspect T)
           ∧ primary_key c = false
           ∧ ∀ fk, fk ∈ foreign_keys (table c) →
                   fk_parent fk ≠ column_name c.
Proof.
  unfold build_attributes.
  destruct (inversed_get self T) as [A|e]; [|done]. cbn. intros [= <-] kv.
  rewrite (object_members_pairs (λ kc, s kc.1) (λ kc, ColumnE kc.2)).
  intros ([k c] & -> & [Hskip Hin]%list_elem_of_filter)%list_elem_of_fmap.
  exists k, c. cbn in *. split; [done|]. split; [done|].
  unfold skip_field in Hskip.
  destruct (primary_key c); [done|].
  destruct (has_foreign_key c) eqn:Hfk; [done|]. split; [done|].
  intros fk Hfkin Hparent.
  assert (has_foreign_key c = true) as Htrue; [|congruence].
  apply has_foreign_key_spec. apply Exists_exists. by exists fk.
Qed.

(** X6: when [fields] is absent or empty, or has no key for the alias
    of the type, [build_attributes] narrows nothing: it emits every
    plain column of the type, in column order. *)
Theorem build_attributes_unselected (self : JSONMapping) (T : cls)
    (A : string) (fields : fields_t) :
  inversed_get self T = Ok A →
  fields_and_has fields A = false →
  ∃ attrs,
    build_attributes self T fields = Ok attrs
    ∧ object_keys attrs = s <$> plain_columns T.
Proof.
  intros HT Hsel. rewrite (build_attributes_ok _ _ A) by done.
  eexists. split; [done|].
  rewrite (object_keys_pairs (λ kc, s kc.1) (λ kc, ColumnE kc.2)).
  unfold plain_columns. rewrite <- list_fmap_compose. f_equal.
  apply filter_ext_in. intros [k c] _. cbn.
  rewrite <- plain_column_spec.
  assert (skip_field fields A k c = primary_key c || has_foreign_key c) as ->.
  { unfold skip_field, fields_and_has in *.
    destruct fields as [d|]; [|by rewrite orb_false_r].
    destruct (d !! A) eqn:EA; [|by rewrite andb_false_r, orb_false_r].
    rewrite (bool_decide_true (is_Some (Some l))) in Hsel by eauto.
    rewrite andb_true_r in Hsel. by rewrite Hsel, orb_false_r. }
  by destruct (primary_key c), (has_foreign_key c).
Qed.

(** ** The blocks of a resource object *)

Lemma attributes_empty (d : gmap string (list string)) (A : string)
    (F : list string) (T : cls) :
  d !! A = Some F →
  concat ((λ kc : string * Column, [s kc.1; ColumnE kc.2]) <$>
     filter (λ kc, negb (skip_field (Some d) A kc.1 kc.2))
            (columns (inspect T))) = []
  ↔ filter (λ k, k ∈ F) (plain_columns T) = [].
Proof.
  intros HA. unfold plain_columns. rewrite <- (selected_keys d A F _ HA).
  destruct (filter _ (columns (inspect T))) as [|kc l]; [done|].
  split; discriminate.
Qed.

Lemma relationship_entries_empty (self : JSONMapping) (entity : cls)
    (rels : list Relationship) (n n' : nat) (out : list expr) :
  for_each (relationship_entry self entity) rels n = (Ok out, n') →
  out = [] ↔ rels = [].
Proof.
  destruct rels as [|r rels].
  - cbn. unfold_build. by intros [= <- <-].
  - cbn [for_each]. unfold_build.
    destruct (relationship_entry self entity r n) as [[o|e] n1] eqn:Er;
      [|done].
    apply relationship_entry_data in Er as (_ & v & -> & _).
    destruct (for_each _ rels n1) as [[os|e] n2]; [|done].
    intros [= <- <-]. split; discriminate.
Qed.

(** X7: for a type whose alias is a key of [fields], the blocks that
    follow [id] and [type] are [attributes], present exactly when the
    field list names a plain column of the type, then [relationships],
    present exactly when it names a declared relationship; no other key
    is emitted. *)
Theorem attrs_and_relationships_blocks (self : JSONMapping) (entity : cls)
    (A : string) (d : gmap string (list string)) (F : list string)
    (n n' : nat) (out : list expr) :
  inversed_get self entity = Ok A →
  d !! A = Some F →
  build_attrs_and_relationships self entity (Some d) n = (Ok out, n') →
  object_keys out
  = match filter (λ k, k ∈ F) (plain_columns entity) with
    | [] => []
    | _ => [s "attributes"]
    end
    ++ match omap (λ field,
                     lookup_key field (relationships (inspect entity))) F
       with
       | [] => []
       | _ => [s "relationships"]
       end.
Proof.
  intros HT HA. unfold build_attrs_and_relationships. unfold_build.
  rewrite (build_attributes_ok _ _ A) by done.
  pose proof (attributes_empty d A F entity HA) as Hattrs.
  destruct (concat _) as [|x attrs].
  - rewrite (proj1 Hattrs eq_refl).
    unfold build_relationships. unfold_build. rewrite HT. cbn. rewrite HA.
    destruct (for_each _ _ n) as [[rels|e] n1] eqn:Eloop; [|done].
    apply relationship_entries_empty in Eloop.
    intros [= <- <-].
    destruct rels as [|y rels], (omap _ F) as [|r rs]; try done.
    + discriminate (proj1 Eloop eq_refl).
    + discriminate (proj2 Eloop eq_refl).
  - destruct (filter _ (plain_columns entity)) as [|k ks];
      [discriminate (proj2 Hattrs eq_refl)|].
    unfold build_relationships. unfold_build. rewrite HT. cbn. rewrite HA.
    destruct (for_each _ _ n) as [[rels|e] n1] eqn:Eloop; [|done].
    apply relationship_entries_empty in Eloop.
    intros [= <- <-].
    destruct rels as [|y rels], (omap _ F) as [|r rs]; try done.
    + discriminate (proj1 Eloop eq_refl).
    + discriminate (proj2 Eloop eq_refl).
Qed.

(** ** The aggregate query *)

Lemma join_hops_selected (rels : list Relationship) (q q' : query)
    (a a' : from_ref) :
  join_hops rels q a = Ok (q', a') → selected q' = selected q.
Proof.
  revert q a. induction rels as [|r rels IH]; intros q a; cbn [join_hops].
  - by intros [= <- <-].
  - destruct (getattr a (key r)) as [[f name]|e]; [|done].
    destruct (query_join q f name true) as [q1|e] eqn:Ejoin; [|done].
    apply query_join_ok in Ejoin as [-> _].
    by intros ->%IH.
Qed.

Lemma select_aggregate_filter (agg : expr) (rels : list Relationship)
    (n n' : nat) (q : query) :
  select_aggregate agg rels n = (Ok q, n') →
  ∃ l inner,
    last rels = Some l
    ∧ q = Filter match secondary l with
                 | Some t => JoinOn inner t (secondaryjoin l)
                 | None => inner
                 end (primaryjoin l)
    ∧ selected inner = Some agg
    ∧ length (joins inner) = length rels - 1
    ∧ n' = if bool_decide (1 < length rels) then S n else n.
Proof.
  unfold select_aggregate. unfold_build.
  destruct (bool_decide (1 < length rels)) eqn:Elen.
  - apply bool_decide_eq_true in Elen.
    destruct rels as [|r0 rels']; [done|]. unfold aliased.
    set (rels := r0 :: rels') in *.
    destruct (session_query agg) as [q0|e] eqn:Eagg;
      cbn -[lookup last rels]; [|done].
    apply session_query_ok in Eagg as ->.
    destruct (join_hops _ _ _) as [[q1 a1]|e] eqn:Ehops; cbn -[lookup last];
      [|done].
    pose proof (join_hops_selected _ _ _ _ _ Ehops) as Hsel.
    apply join_hops_joins in Ehops as [(js & Hjs & Hlen) _].
    rewrite length_take in Hlen.
    match goal with
    | |- context [rels !! ?i] => destruct (rels !! i) as [r|]
    end; cbn -[last]; [|done].
    destruct (getattr a1 (key r)) as [[f name]|e]; cbn -[last]; [|done].
    destruct (query_join q1 f name false) as [q2|e] eqn:Ejoin;
      cbn -[last]; [|done].
    apply query_join_ok in Ejoin as [-> _].
    destruct (last rels) as [l|]; cbn; [|done].
    intros [= <- <-]. exists l, (Join q1 f name false).
    split; [done|]. split; [done|]. split; [done|]. split; [|done].
    cbn [joins]. rewrite Hjs. cbn [joins]. rewrite !length_app, Hlen.
    subst rels. cbn [length] in *. lia.
  - apply bool_decide_eq_false in Elen.
    destruct rels as [|r0 [|r1 rels']]; [done| |cbn in Elen; lia].
    cbn. destruct (session_query agg) as [q0|e] eqn:Eagg; cbn; [|done].
    apply session_query_ok in Eagg as ->.
    intros [= <- <-]. by eexists r0, _.
Qed.

(** X8: whenever [select_aggregate] succeeds, the chain is not empty
    and the query is the filter by the primary join of the last
    relationship, over the join through its secondary table when it has
    one, of a query that selects the given aggregate expression and
    joins one relationship attribute per remaining hop; one alias object
    is made when the chain has more than one relationship and none
    otherwise. *)
Theorem select_aggregate_shape (agg : expr) (rels : list Relationship)
    (n n' : nat) (q : query) :
  select_aggregate agg rels n = (Ok q, n') →
  ∃ l inner,
    last rels = Some l
    ∧ q = Filter match secondary l with
                 | Some t => JoinOn inner t (secondaryjoin l)
                 | None => inner
                 end (primaryjoin l)
    ∧ selected inner = Some agg
    ∧ length (joins inner) = length rels - 1
    ∧ n' = if bool_decide (1 < length rels) then S n else n.
Proof. apply select_aggregate_filter. Qed.

Lemma lookup_key_elem {A} (k : string) (l : list (string * A)) :
  k ∈ l.*1 → ∃ a, lookup_key k l = Some a.
Proof.
  induction l as [|[k' a] l IH]; [by intros ?%not_elem_of_nil|]. cbn.
  intros Hk. destruct (decide (k = k')) as [->|Hne]; [by eauto|].
  apply IH. by apply elem_of_cons in Hk as [?|?].
Qed.

Lemma session_query_column (e : expr) :
  is_text e = false → session_query e = Ok (SessionQuery e).
Proof. by destruct e. Qed.

Lemma two_hops_outcome (agg : expr)
    (r0 r1 : Relationship) (n : nat) :
  is_text agg = false →
  select_aggregate agg [r0; r1] n
  = (if decide (key r0 ∈ (relationships (inspect (mapper_class r0))).*1)
     then
       let alias := Aliased n (mapper_class r0) in
       let q := Join (SelectFrom (SessionQuery agg) alias) alias (key r0)
                     false in
       Ok (Filter match secondary r1 with
                  | Some t => JoinOn q t (secondaryjoin r1)
                  | None => q
                  end (primaryjoin r1))
     else if decide (key r0 ∈ (columns (inspect (mapper_class r0))).*1)
     then Raise (AttributeError (mapper_class r0 +:+ "." +:+ key r0)
                                "mapper")
     else Raise (AttributeError (mapper_class r0) (key r0)),
     S n).
Proof.
  intros Hagg. unfold select_aggregate, getattr, has_attr, query_join.
  unfold_build. rewrite bool_decide_true by (cbn; lia).
  cbn. rewrite (session_query_column _ Hagg). cbn.
  destruct (decide (key r0 ∈ (relationships (inspect (mapper_class r0))).*1))
    as [Hrel|Hrel].
  - rewrite (bool_decide_true _ Hrel), orb_true_r. cbn.
    apply lookup_key_elem in Hrel as [r ->]. by destruct (secondary r1).
  - rewrite (bool_decide_false _ Hrel), orb_false_r.
    destruct (decide (key r0 ∈ (columns (inspect (mapper_class r0))).*1))
      as [Hcol|Hcol].
    + rewrite (bool_decide_true _ Hcol). cbn.
      by rewrite (lookup_key_None _ _ Hrel).
    + by rewrite (bool_decide_false _ Hcol).
Qed.

(** X9: on a chain of two relationships, with an aggregate that is a
    column expression, [select_aggregate] makes an alias of the first
    relationship's own target class and joins the attribute of that
    alias named like the first relationship.  When the target class has
    a relationship of that name, the query is the filter, by the primary
    join of the second relationship, of that one join from the alias,
    made without [aliased=True], through the secondary table of the
    second relationship when it has one.  When the target class has only
    a column of that name, [query.join] raises [AttributeError] (a
    column attribute has no mapper); when it has no attribute of that
    name, [getattr] raises [AttributeError].  The alias is made in all
    three cases. *)
Theorem select_aggregate_two_hops_attribute (agg : expr)
    (r0 r1 : Relationship) (n : nat) :
  is_text agg = false →
  select_aggregate agg [r0; r1] n
  = (if decide (key r0 ∈ (relationships (inspect (mapper_class r0))).*1)
     then
       let alias := Aliased n (mapper_class r0) in
       let q := Join (SelectFrom (SessionQuery agg) alias) alias (key r0)
                     false in
       Ok (Filter match secondary r1 with
                  | Some t => JoinOn q t (secondaryjoin r1)
                  | None => q
                  end (primaryjoin r1))
     else if decide (key r0 ∈ (columns (inspect (mapper_class r0))).*1)
     then Raise (AttributeError (mapper_class r0 +:+ "." +:+ key r0)
                                "mapper")
     else Raise (AttributeError (mapper_class r0) (key r0)),
     S n).
Proof. apply two_hops_outcome. Qed.

(** ** Included resources, one sub-query per relationship reached *)

Lemma build_id_and_type_ok (self : JSONMapping) (c : cls) (a : string) :
  inversed_get self c = Ok a →
  has_attr c "id" = true →
  build_id_and_type self c = Ok [s "id"; Attr (Raw c) "id"; s "type"; s a].
Proof.
  intros Hc Hid. unfold build_id_and_type, getattr. rewrite Hc. cbn.
  by rewrite Hid.
Qed.

Lemma build_id_and_type_inv (self : JSONMapping) (c : cls)
    (idt : list expr) :
  build_id_and_type self c = Ok idt →
  ∃ a, inversed_get self c = Ok a
       ∧ has_attr c "id" = true
       ∧ idt = [s "id"; Attr (Raw c) "id"; s "type"; s a].
Proof.
  unfold build_id_and_type, getattr.
  destruct (inversed_get self c) as [a|e]; [|done]. cbn.
  destruct (has_attr c "id"); [|done]. cbn. intros [= <-]. by exists a.
Qed.

Lemma included_select_member (self : JSONMapping) (entity : cls)
    (fields : fields_t) (first : Relationship) (rest : list Relationship)
    (i : nat) (r : Relationship) (n n' : nat) (out : list query) :
  included_select self entity fields (first :: rest) (i, r) n
  = (Ok out, n') →
  ∃ member, out = [member] ∧ included_member self entity (first, r) member.
Proof.
  unfold included_select. unfold_build. cbn [fst snd].
  destruct (inversed_get self (mapper_class r)) as [a|e] eqn:Ha; [|done].
  destruct (build_id_and_type self (mapper_class r)) as [idt|e] eqn:Eidt;
    [|done].
  apply build_id_and_type_inv in Eidt as (a' & Ha' & _ & ->).
  assert (a' = a) as -> by congruence.
  assert (Hlast : last (reverse (take (S i) (first :: rest))) = Some first)
    by by rewrite last_reverse.
  destruct (fields_contains fields a) as [[|]|e]; [| |done].
  - destruct (build_attributes self (mapper_class r) fields) as [attrs|e];
      [|done].
    destruct (select_aggregate _ _ n) as [[q|e] n1] eqn:Eq; [|done].
    apply select_aggregate_filter in Eq
      as (l & inner & Hl & -> & Hsel & _ & _).
    assert (l = first) as -> by congruence.
    intros [= <- <-]. eexists. split; [done|].
    eexists _, _, a. split; [done|].
    split; [by destruct (secondary first)|]. split; [done|].
    split; [done|by right].
  - destruct (select_aggregate _ _ n) as [[q|e] n1] eqn:Eq; [|done].
    apply select_aggregate_filter in Eq
      as (l & inner & Hl & -> & Hsel & _ & _).
    assert (l = first) as -> by congruence.
    intros [= <- <-]. eexists. split; [done|].
    eexists _, _, a. split; [done|].
    split; [by destruct (secondary first)|]. split; [done|].
    split; [done|by left].
Qed.

Lemma included_selects_members (self : JSONMapping) (entity : cls)
    (fields : fields_t) (first : Relationship) (rest : list Relationship)
    (l : list Relationship) (i n n' : nat) (out : list query) :
  for_each (included_select self entity fields (first :: rest))
           (enumerate_from i l) n = (Ok out, n') →
  Forall2 (included_member self entity) ((λ r, (first, r)) <$> l) out.
Proof.
  revert i n out. induction l as [|r l IH]; intros i n out.
  - cbn. unfold_build. intros [= <- <-]. constructor.
  - cbn [enumerate_from for_each]. unfold_build.
    destruct (included_select _ _ _ _ (i, r) n) as [[o|e] n1] eqn:Er;
      [|done].
    apply included_select_member in Er as (member & -> & Hmember).
    destruct (for_each _ (enumerate_from (S i) l) n1) as [[os|e] n2] eqn:Ers;
      [|done].
    intros [= <- <-]. apply IH in Ers. cbn. by constructor.
Qed.

Lemma included_path_members (self : JSONMapping) (entity : cls)
    (fields : fields_t) (path : string) (n n' : nat) (out : list query) :
  included_path self entity fields path n = (Ok out, n') →
  ∃ chain,
    path_to_relationships path entity = Ok chain
    ∧ Forall2 (included_member self entity) (path_members chain) out.
Proof.
  unfold included_path. unfold_build.
  destruct (path_to_relationships path entity) as [chain|e]; [|done].
  intros Hloop. exists chain. split; [done|].
  destruct chain as [|first rest].
  - cbn in Hloop. unfold_build. injection Hloop as <- <-. constructor.
  - by apply included_selects_members in Hloop.
Qed.

Lemma included_paths_members (self : JSONMapping) (entity : cls)
    (fields : fields_t) (paths : list string) (n n' : nat)
    (out : list query) :
  for_each (included_path self entity fields) paths n = (Ok out, n') →
  ∃ chains,
    Forall2 (λ p chain, path_to_relationships p entity = Ok chain)
            paths chains
    ∧ Forall2 (included_member self entity)
              (concat (path_members <$> chains)) out.
Proof.
  revert n out. induction paths as [|p paths IH]; intros n out.
  - cbn. unfold_build. intros [= <- <-]. exists []. by split; constructor.
  - cbn [for_each]. unfold_build.
    destruct (included_path self entity fields p n) as [[o|e] n1] eqn:Ep;
      [|done].
    apply included_path_members in Ep as (chain & Hp & Hchain).
    destruct (for_each _ paths n1) as [[os|e] n2] eqn:Eps; [|done].
    intros [= <- <-]. apply IH in Eps as (chains & Hps & Hchains).
    exists (chain :: chains). split; [by constructor|].
    cbn. by apply Forall2_app.
Qed.

Lemma union_members_foldl (a : query) (rest : list query) :
  union_members (foldl Union a rest) = union_members a ++ rest.
Proof.
  revert a. induction rest as [|b rest IH]; intros a; cbn.
  - by rewrite app_nil_r.
  - rewrite IH. cbn. by rewrite <- app_assoc.
Qed.

(** X10: when [build_included] succeeds on a non-empty include list, it
    returns the ['included'] key with the array aggregate over the
    union of one sub-query per relationship of every resolved path, in
    path order (so a path of two segments contributes two, and a
    relationship reached by two paths is selected twice).  Each
    sub-query is correlated to the root, filtered by the join condition
    of the first relationship of its path, and selects the identifier
    of the relationship's target with at most an ['attributes'] block:
    an included resource never has a ['relationships'] block. *)
Theorem build_included_members (self : JSONMapping) (entity : cls)
    (fields : fields_t) (paths : list string) (n n' : nat)
    (out : list expr) :
  paths ≠ [] →
  build_included self entity fields (Some paths) n = (Ok out, n') →
  ∃ union chains,
    out = [s "included";
           AsScalar
             (Select [Func "array_agg" [Text "included.json_object"]]
                     (Some (FromSubquery union "included")))]
    ∧ Forall2 (λ p chain, path_to_relationships p entity = Ok chain)
              paths chains
    ∧ Forall2 (included_member self entity)
              (concat (path_members <$> chains)) (union_members union).
Proof.
  intros Hpaths. destruct paths as [|p ps]; [done|].
  unfold build_included. unfold_build.
  destruct (for_each _ (p :: ps) n) as [[selects|e] n1] eqn:Eloop; [|done].
  apply included_paths_members in Eloop as (chains & Hres & Hmembers).
  destruct selects as [|a rest]; [done|]. cbn.
  intros [= <- <-]. exists (foldl Union a rest), chains.
  split; [done|]. split; [done|].
  rewrite union_members_foldl.
  assert (union_members a = [a]) as ->; [|done].
  apply Forall2_cons_inv_r in Hmembers
    as (fr & frs & (q & main & alias & -> & _) & _ & _).
  done.
Qed.

(** X11: an include path of two segments builds only when the target
    class of its second relationship has an attribute named like that
    relationship (as a self-referencing relationship has): otherwise,
    for a first path that resolves to two relationships with registered
    targets, [build_included] raises [AttributeError] on the second
    prefix, after the sub-query of the first. *)
Theorem include_two_segments_attribute (self : JSONMapping) (entity : cls)
    (d : gmap string (list string)) (path : string)
    (paths : list string) (ra rb : Relationship) (a b : string)
    (n : nat) :
  path_to_relationships path entity = Ok [ra; rb] →
  inversed_get self (mapper_class ra) = Ok a →
  has_attr (mapper_class ra) "id" = true →
  inversed_get self (mapper_class rb) = Ok b →
  has_attr (mapper_class rb) "id" = true →
  has_attr (mapper_class rb) (key rb) = false →
  build_included self entity (Some d) (Some (path :: paths)) n
  = (Raise (AttributeError (mapper_class rb) (key rb)), S n).
Proof.
  intros Hpath Ha Hida Hb Hidb Hattr.
  unfold build_included. unfold_build. cbn [for_each]. unfold_build.
  unfold included_path at 1. unfold_build. rewrite Hpath.
  unfold enumerate. cbn [enumerate_from for_each]. unfold_build.
  unfold included_select. unfold_build. cbn [fst snd].
  rewrite Ha, (build_id_and_type_ok _ _ a), (build_attributes_ok _ _ a)
    by done.
  rewrite Hb, (build_id_and_type_ok _ _ b), (build_attributes_ok _ _ b)
    by done.
  cbn [fields_contains take reverse rev_append].
  assert (Hfirst : ∀ agg,
    is_text agg = false →
    select_aggregate agg (reverse [ra]) n
    = (Ok (Filter match secondary ra with
                  | Some t =>
                      JoinOn (SelectFrom (SessionQuery agg)
                                (Raw (mapper_class ra))) t (secondaryjoin ra)
                  | None => SelectFrom (SessionQuery agg)
                              (Raw (mapper_class ra))
                  end (primaryjoin ra)), n)).
  { intros agg Hagg. unfold select_aggregate. unfold_build. cbn.
    by rewrite (session_query_column _ Hagg). }
  assert (Hsecond : ∀ agg,
    is_text agg = false →
    select_aggregate agg (reverse [ra; rb]) n
    = (Raise (AttributeError (mapper_class rb) (key rb)), S n)).
  { intros agg Hagg. change (reverse [ra; rb]) with [rb; ra].
    rewrite (two_hops_outcome _ _ _ _ Hagg).
    unfold has_attr in Hattr.
    apply orb_false_iff in Hattr as [Hcol%bool_decide_eq_false
                                       Hrel%bool_decide_eq_false].
    by rewrite !decide_False. }
  destruct (bool_decide (is_Some (d !! a))),
    (bool_decide (is_Some (d !! b)));
    rewrite Hfirst by done; rewrite Hsecond by done; done.
Qed.

(** ** The document *)

Lemma build_data_shape (self : JSONMapping) (entity : cls)
    (fields : fields_t) (include : option (list string)) (n n' : nat)
    (args : list expr) :
  build_data self entity fields include n = (Ok args, n') →
  ∃ v, args = [s "data"; v].
Proof.
  unfold build_data. unfold_build.
  destruct (inversed_get self entity) as [a|e]; [|done].
  destruct (build_id_and_type self entity) as [idt|e]; [|done].
  destruct (fields_and_has fields a).
  - destruct (build_attrs_and_relationships self entity fields n)
      as [[more|e] n1]; [|done].
    intros [= <- <-]. by eexists.
  - intros [= <- <-]. by eexists.
Qed.

Lemma build_included_shape (self : JSONMapping) (entity : cls)
    (fields : fields_t) (include : option (list string)) (n n' : nat)
    (included : list expr) :
  build_included self entity fields include n = (Ok included, n') →
  object_keys included
  = match include with
    | Some (_ :: _) => [s "included"]
    | _ => []
    end.
Proof.
  unfold build_included. destruct include as [[|p ps]|].
  - unfold_build. by intros [= <- <-].
  - unfold_build.
    destruct (for_each _ (p :: ps) n) as [[selects|e] n1]; [|done].
    destruct (reduce Union selects) as [union|e]; [|done].
    by intros [= <- <-].
  - unfold_build. by intros [= <- <-].
Qed.

(** X12: a query returned by [select] selects from the root entity one
    [json_build_object] whose keys are ['data'] alone when the include
    list is absent or empty, and ['data'] then ['included'] when it is
    not. *)
Theorem select_document_keys (self : JSONMapping) (entity : cls)
    (fields : fields_t) (include : option (list string)) (n n' : nat)
    (q : query) :
  select self entity fields include n = (Ok q, n') →
  ∃ args,
    q = Select [Func "json_build_object" args] (Some (FromEntity entity))
    ∧ object_keys args
      = s "data" :: match include with
                    | Some (_ :: _) => [s "included"]
                    | _ => []
                    end.
Proof.
  unfold select. unfold_build.
  destruct (build_data self entity fields include n) as [[args|e] n1] eqn:Ed;
    [|done].
  apply build_data_shape in Ed as [v ->].
  destruct (build_included self entity fields include n1)
    as [[included|e] n2] eqn:Ei; [|done].
  apply build_included_shape in Ei. intros [= <- <-].
  eexists. split; [done|]. cbn. by rewrite Ei.
Qed.

(** ** Alias objects *)

(** X13: without an include list (absent or empty) [select] makes no
    alias object, whether it returns or raises: the relationship
    sub-queries of the root are single-hop and select from the target
    class itself. *)
Theorem select_without_include_makes_no_alias (self : JSONMapping)
    (entity : cls) (fields : fields_t) (include : option (list string))
    (n : nat) :
  include = None ∨ include = Some [] →
  (select self entity fields include n).2 = n.
Proof.
  intros Hinclude. unfold select. unfold_build.
  pose proof (build_data_state self entity fields include n) as Hdata.
  destruct (build_data self entity fields include n) as [[args|e] n1];
    cbn in Hdata; subst n1; [|done].
  by destruct Hinclude as [-> | ->].
Qed.

(** ** Success of [select] *)

Lemma select_aggregate_single (agg : expr) (r : Relationship) (n : nat) :
  is_text agg = false →
  select_aggregate agg [r] n
  = (Ok (Filter match secondary r with
                | Some t =>
                    JoinOn (SelectFrom (SessionQuery agg)
                              (Raw (mapper_class r))) t (secondaryjoin r)
                | None => SelectFrom (SessionQuery agg) (Raw (mapper_class r))
                end (primaryjoin r)), n).
Proof.
  intros Hagg. unfold select_aggregate. unfold_build. cbn.
  by rewrite (session_query_column _ Hagg).
Qed.

Lemma relationship_entries_ok (self : JSONMapping) (entity : cls)
    (rels : list Relationship) (n : nat) :
  (∀ r, r ∈ rels →
     (∃ a, inversed_get self (mapper_class r) = Ok a)
     ∧ has_attr (mapper_class r) "id" = true) →
  ∃ out, for_each (relationship_entry self entity) rels n = (Ok out, n).
Proof.
  induction rels as [|r rels IH]; intros Hall; [by eexists|].
  cbn [for_each]. unfold_build.
  destruct (Hall r) as [[a Ha] Hid]; [constructor|].
  destruct IH as [outs Houts];
    [intros r' Hr'; apply Hall; by constructor|].
  unfold relationship_entry at 1. unfold_build.
  rewrite (build_id_and_type_ok _ _ a) by done.
  rewrite select_aggregate_single by (by destruct (uselist r)).
  rewrite Houts. by eexists.
Qed.

Lemma build_data_succeeds (self : JSONMapping) (entity : cls) (A : string)
    (fields : fields_t) (include : option (list string)) (n : nat) :
  inversed_get self entity = Ok A →
  has_attr entity "id" = true →
  (∀ names r,
     fields_getitem fields A = Ok names →
     r ∈ omap (λ field, lookup_key field (relationships (inspect entity)))
              names →
     (∃ a, inversed_get self (mapper_class r) = Ok a)
     ∧ has_attr (mapper_class r) "id" = true) →
  ∃ args, build_data self entity fields include n = (Ok args, n).
Proof.
  intros HA Hid Hrels.
  unfold build_data. unfold_build. rewrite HA.
  rewrite (build_id_and_type_ok _ _ A) by done.
  destruct (fields_and_has fields A) eqn:Esel; [|by eexists].
  unfold build_attrs_and_relationships. unfold_build.
  rewrite (build_attributes_ok _ _ A) by done.
  unfold build_relationships. unfold_build. rewrite HA.
  unfold fields_and_has in Esel. destruct fields as [d|]; [|done].
  apply andb_true_iff in Esel as [_ [names Hnames]%bool_decide_eq_true].
  cbn. rewrite Hnames.
  destruct (relationship_entries_ok self entity
              (omap (λ field,
                       lookup_key field (relationships (inspect entity)))
                    names) n) as [out ->].
  { intros r Hr. apply (Hrels names); [|done]. cbn. by rewrite Hnames. }
  by eexists.
Qed.

(** X14: without an include list, [select] succeeds whenever the root
    type has an alias and an [id] and so does the target of every
    selected name that is a declared relationship of the root; unknown
    aliases and undeclared names in [fields] cannot make it fail. *)
Theorem select_succeeds (self : JSONMapping) (entity : cls) (A : string)
    (fields : fields_t) (include : option (list string)) (n : nat) :
  include = None ∨ include = Some [] →
  inversed_get self entity = Ok A →
  has_attr entity "id" = true →
  (∀ names r,
     fields_getitem fields A = Ok names →
     r ∈ omap (λ field, lookup_key field (relationships (inspect entity)))
              names →
     (∃ a, inversed_get self (mapper_class r) = Ok a)
     ∧ has_attr (mapper_class r) "id" = true) →
  ∃ q, select self entity fields include n = (Ok q, n).
Proof.
  intros Hinclude HA Hid Hrels.
  destruct (build_data_succeeds self entity A fields include n HA Hid Hrels)
    as [args Hdata].
  unfold select. unfold_build. rewrite Hdata.
  destruct Hinclude as [-> | ->]; by eexists.
Qed.

(** ** Omission *)

(** X15: when [fields] is absent or empty, or has no key for the root's
    alias, the data block of a registered root with an [id] is the
    array aggregate of the identifier object alone: neither attributes
    nor relationships are selected, and nothing can fail. *)
Theorem build_data_omission (self : JSONMapping) (entity : cls)
    (A : string) (fields : fields_t) (include : option (list string))
    (n : nat) :
  inversed_get self entity = Ok A →
  has_attr entity "id" = true →
  fields_and_has fields A = false →
  build_data self entity fields include n
  = (Ok [s "data";
         AsScalar
           (Correlate
              (Select [Func "array_agg" [Text "main_json.json_object"]]
                 (Some (FromAlias
                    (Select [Label (identifier_object entity A)
                                   "json_object"] None)
                    "main_json")))
              entity)], n).
Proof.
  intros HA Hid Hsel. unfold build_data. unfold_build.
  by rewrite HA, (build_id_and_type_ok _ _ A), Hsel.
Qed.

(** ** How many alias objects [build_included] makes *)

Lemma included_select_state (self : JSONMapping) (entity : cls)
    (fields : fields_t) (chain : list Relationship) (i : nat)
    (r : Relationship) (n n' : nat) (out : list query) :
  i < length chain →
  included_select self entity fields chain (i, r) n = (Ok out, n') →
  n' = if bool_decide (0 < i) then S n else n.
Proof.
  intros Hi. unfold included_select. unfold_build. cbn [fst snd].
  destruct (inversed_get self (mapper_class r)) as [a|e]; [|done].
  destruct (build_id_and_type self (mapper_class r)) as [idt|e]; [|done].
  assert (Hlen : length (reverse (take (S i) chain)) = S i)
    by (rewrite length_reverse, length_take; lia).
  assert (Hcount : ∀ agg q m,
    select_aggregate agg (reverse (take (S i) chain)) n = (Ok q, m) →
    m = if bool_decide (0 < i) then S n else n).
  { intros agg q m (_ & _ & _ & _ & _ & _ & ->)%select_aggregate_filter.
    rewrite Hlen. by rewrite (bool_decide_ext (1 < S i) (0 < i)) by lia. }
  destruct (fields_contains fields a) as [[|]|e]; [| |done].
  - destruct (build_attributes self (mapper_class r) fields) as [attrs|e];
      [|done].
    destruct (select_aggregate _ _ n) as [[q|e] n1] eqn:Eq; [|done].
    apply Hcount in Eq as ->. by intros [= <- <-].
  - destruct (select_aggregate _ _ n) as [[q|e] n1] eqn:Eq; [|done].
    apply Hcount in Eq as ->. by intros [= <- <-].
Qed.

Lemma included_selects_state (self : JSONMapping) (entity : cls)
    (fields : fields_t) (chain l : list Relationship) (i n n' : nat)
    (out : list query) :
  i + length l = length chain →
  for_each (included_select self entity fields chain)
           (enumerate_from i l) n = (Ok out, n') →
  n' = n + (length l - if bool_decide (0 < i) then 0 else 1).
Proof.
  revert i n n' out. induction l as [|r l IH]; intros i n n' out Hlen.
  - cbn. unfold_build. intros [= <- <-]. lia.
  - cbn [enumerate_from for_each]. unfold_build.
    destruct (included_select _ _ _ _ (i, r) n) as [[o|e] n1] eqn:Er;
      [|done].
    apply included_select_state in Er; [|cbn in Hlen; lia].
    destruct (for_each _ (enumerate_from (S i) l) n1) as [[os|e] n2] eqn:Ers;
      [|done].
    apply IH in Ers; [|cbn in Hlen; lia].
    intros [= <- <-]. subst n1 n2. cbn [length].
    rewrite (bool_decide_true (0 < S i)) by lia.
    destruct (bool_decide (0 < i)); lia.
Qed.

Lemma included_paths_state (self : JSONMapping) (entity : cls)
    (fields : fields_t) (paths : list string) (n n' : nat)
    (out : list query) :
  for_each (included_path self entity fields) paths n = (Ok out, n') →
  ∃ chains,
    Forall2 (λ p chain, path_to_relationships p entity = Ok chain)
            paths chains
    ∧ n' = n + sum_list ((λ chain, length chain - 1) <$> chains).
Proof.
  revert n n' out. induction paths as [|p paths IH]; intros n n' out.
  - cbn. unfold_build. intros [= <- <-]. exists []. split; [constructor|].
    cbn. lia.
  - cbn [for_each]. unfold_build.
    destruct (included_path self entity fields p n) as [[o|e] n1] eqn:Ep;
      [|done].
    unfold included_path in Ep. unfold_build.
    destruct (path_to_relationships p entity) as [chain|e] eqn:Hp; [|done].
    apply (included_selects_state _ _ _ chain chain 0) in Ep; [|done].
    rewrite (bool_decide_false (0 < 0)) in Ep by lia.
    destruct (for_each _ paths n1) as [[os|e] n2] eqn:Eps; [|done].
    intros [= <- <-]. apply IH in Eps as (chains & Hps & ->).
    exists (chain :: chains). split; [by constructor|].
    subst n1. cbn. lia.
Qed.

(** X16: when [build_included] succeeds it has made one alias object
    for every path prefix longer than one relationship, that is, for a
    resolved chain of [k] relationships, [k - 1] alias objects, and no
    other. *)
Theorem build_included_alias_count (self : JSONMapping) (entity : cls)
    (fields : fields_t) (paths : list string) (n n' : nat)
    (out : list expr) :
  build_included self entity fields (Some paths) n = (Ok out, n') →
  ∃ chains,
    Forall2 (λ p chain, path_to_relationships p entity = Ok chain)
            paths chains
    ∧ n' = n + sum_list ((λ chain, length chain - 1) <$> chains).
Proof.
  unfold build_included. destruct paths as [|p ps].
  - unfold_build. intros [= <- <-]. exists []. split; [constructor|].
    cbn. lia.
  - unfold_build.
    destruct (for_each _ (p :: ps) n) as [[selects|e] n1] eqn:Eloop; [|done].
    apply included_paths_state in Eloop as (chains & Hres & ->).
    destruct (reduce Union selects) as [union|e]; [|done].
    intros [= <- <-]. by exists chains.
Qed.

(** ** Include lists with nothing to union *)

(** C8, as the code has it: when the include list is non-empty and no
    path yields a relationship to build a sub-query from, [select] fails
    at build time, before any union is formed, and with no error of its
    own.  It raises the error of [build_data] when building the data
    block of the root fails (the [KeyError] of a root without an alias
    comes first); otherwise the resolver's error for the first path, in
    the order of the list, that does not resolve; and when every path
    resolves to an empty chain, the [TypeError] of [reduce] over an
    empty sequence.  No alias object is made.  In particular, for a
    root that has an alias and an [id], and whose selected relationships
    have targets with an alias and an [id], the error is the resolver's
    or that of [reduce]. *)
Theorem build_included_nothing_to_union (self : JSONMapping)
    (entity : cls) (fields : fields_t) (paths : list string) (n : nat) :
  paths ≠ [] →
  (∀ p, p ∈ paths →
     path_to_relationships p entity = Ok []
     ∨ ∃ e, path_to_relationships p entity = Raise e) →
  let nothing_to_union :=
    match first_resolver_error entity paths with
    | Some e => e
    | None => TypeError "reduce() of empty sequence with no initial value"
    end in
  select self entity fields (Some paths) n
  = (Raise
       match (build_data self entity fields (Some paths) n).1 with
       | Raise e => e
       | Ok _ => nothing_to_union
       end, n)
  ∧ ∀ A,
      inversed_get self entity = Ok A →
      "id" ∈ (columns (inspect entity)).*1 →
      (∀ names r,
         fields_getitem fields A = Ok names →
         r ∈ omap (λ field,
                     lookup_key field (relationships (inspect entity)))
                  names →
         (∃ a, inversed_get self (mapper_class r) = Ok a)
         ∧ "id" ∈ (columns (inspect (mapper_class r))).*1) →
      select self entity fields (Some paths) n
      = (Raise nothing_to_union, n).
Proof.
  intros Hpaths Hall nothing_to_union.
  assert (Hselect :
    select self entity fields (Some paths) n
    = (Raise
         match (build_data self entity fields (Some paths) n).1 with
         | Raise e => e
         | Ok _ => nothing_to_union
         end, n)).
  { subst nothing_to_union. destruct paths as [|p ps]; [done|].
    unfold select. unfold_build.
    pose proof (build_data_state self entity fields (Some (p :: ps)) n)
      as Hstate.
    destruct (build_data self entity fields (Some (p :: ps)) n)
      as [[args|e] n1]; cbn in Hstate; subst n1; [|done].
    unfold build_included. unfold_build.
    rewrite (included_paths_unresolved self entity fields (p :: ps) n Hall).
    cbn [fst]. by destruct (first_resolver_error entity (p :: ps)). }
  split; [exact Hselect|].
  intros A HA Hid Hrels. rewrite Hselect.
  assert (Hattr : ∀ c, "id" ∈ (columns (inspect c)).*1 →
                       has_attr c "id" = true).
  { intros c Hc. unfold has_attr. by rewrite (bool_decide_true _ Hc). }
  destruct (build_data_succeeds self entity A fields (Some paths) n)
    as [args ->]; [done|by apply Hattr| |done].
  intros names r Hnames Hr.
  destruct (Hrels names r Hnames Hr) as [Ha Hc]. split; [done|].
  by apply Hattr.
Qed.

End Properties.

(** * The properties on the schema of the test suite *)

(** [test_fields_parameter] with [fields=None]: only [id] and [type]
    of the root are selected, and no alias object is made. *)
Example select_without_fields :
  @select Fixture.schema Fixture.json "Article" None None 0
  = (Ok (Select
           [Func "json_build_object"
              [s "data";
               AsScalar
                 (Correlate
                    (Select
                       [Func "array_agg" [Text "main_json.json_object"]]
                       (Some (FromAlias
                                (Select
                                   [Label
                                      (identifier_object "Article"
                                                         "articles")
                                      "json_object"] None)
                                "main_json")))
                    "Article")]]
           (Some (FromEntity "Article"))), 0).
Proof. vm_compute. reflexivity. Qed.

(** [test_deep_relationships]: the include path [category.subcategories]
    contributes one sub-query per prefix; the second walks the reversed
    chain from an alias of Category. *)
Example select_deep_relationships :
  ∃ q1 q2 args,
    @build_included Fixture.schema Fixture.json "Article"
      (Fixture.fields_of [("articles", ["name"])])
      (Some ["category.subcategories"]) 0
    = (Ok [s "included";
           AsScalar
             (Select args
                     (Some (FromSubquery
                              (Union (Correlate q1 "Article")
                                     (Correlate q2 "Article"))
                              "included")))], 1)
    ∧ joins q1 = []
    ∧ joins q2 = [(Aliased 0 "Category", "subcategories", false)].
Proof.
  eexists _, _, _. split; [vm_compute; reflexivity|].
  split; reflexivity.
Qed.

(** C4 on Article with [fields = {'articles': ['name', 'content',
    'category_id', 'category']}]. *)
Lemma build_attributes_narrowing_witness :
  ∃ attrs,
    @build_attributes Fixture.schema Fixture.json "Article"
      (Fixture.fields_of
         [("articles", ["name"; "content"; "category_id"; "category"])])
    = Ok attrs
    ∧ object_keys attrs
      = s <$> filter (λ k, k ∈ ["name"; "content"; "category_id"; "category"])
                     (@plain_columns Fixture.schema "Article")
    ∧ ∀ k, s k ∈ object_keys attrs
           ↔ k ∈ ["name"; "content"; "category_id"; "category"]
             ∧ k ∈ @plain_columns Fixture.schema "Article".
Proof.
  apply (@build_attributes_narrowing Fixture.schema Fixture.json
           "Article" "articles"); vm_compute; reflexivity.
Defined.

(** C7 as stated fails: with [fields = {'articles': ['name', 'bogus']}]
    the attributes object of Article has the single key ['name']; the
    selected name [bogus], which is no column, is not emitted at all. *)
Lemma absent_field_not_emitted :
  ∃ attrs,
    @build_attributes Fixture.schema Fixture.json "Article"
      (Fixture.fields_of [("articles", ["name"; "bogus"])]) = Ok attrs
    ∧ object_keys attrs = [s "name"]
    ∧ s "bogus" ∉ object_keys attrs.
Proof.
  eexists. split; [vm_compute; reflexivity|]. split; [reflexivity|].
  cbn. intros Hin%list_elem_of_singleton. vm_compute in Hin. discriminate.
Defined.

Lemma build_attributes_absent_field_witness :
  ∃ attrs,
    @build_attributes Fixture.schema Fixture.json "Article"
      (Fixture.fields_of [("articles", ["name"; "bogus"])]) = Ok attrs
    ∧ s "bogus" ∉ object_keys attrs.
Proof.
  apply (@build_attributes_absent_field Fixture.schema Fixture.json
           "Article" "articles").
  - vm_compute; reflexivity.
  - apply (bool_decide_unpack _). vm_compute. exact I.
Defined.

(** C5 as stated fails: Country is registered and its primary key is
    the column [code], yet [build_id_and_type] raises instead of
    returning that column. *)
Lemma primary_key_not_named_id :
  @inversed_get Fixture.json_countries "Country" = Ok "countries"
  ∧ (∃ c, ("code", c) ∈ columns (Fixture.catalog "Country")
          ∧ primary_key c = true)
  ∧ @build_id_and_type Fixture.schema Fixture.json_countries "Country"
    = Raise (AttributeError "Country" "id").
Proof.
  split; [vm_compute; reflexivity|]. split; [|vm_compute; reflexivity].
  eexists. split; [apply list_elem_of_here|reflexivity].
Defined.

(** C5 on Region, whose column [id] is not its primary key: the pair
    holds that column, not the primary key [code]. *)
Lemma build_id_and_type_reads_id_witness :
  @inversed_get Fixture.json_countries "Region" = Ok "regions"
  ∧ (∃ c, ("id", c) ∈ columns (Fixture.catalog "Region")
          ∧ primary_key c = false)
  ∧ @build_id_and_type Fixture.schema Fixture.json_countries "Region"
    = Ok [s "id"; Attr (Raw "Region") "id"; s "type"; s "regions"].
Proof.
  assert (@inversed_get Fixture.json_countries "Region" = Ok "regions")
    as Hregion by (vm_compute; reflexivity).
  split; [exact Hregion|]. split.
  - eexists. split; [apply list_elem_of_further, list_elem_of_here|].
    reflexivity.
  - rewrite (@build_id_and_type_reads_id Fixture.schema
               Fixture.json_countries "Region" "regions" Hregion).
    rewrite decide_True; [done|]. left.
    apply (bool_decide_unpack _). vm_compute. exact I.
Defined.

(** C1 as stated fails: Article.comments is to-many, and for an
    article that no comment refers to, the value under ['data'] is NULL,
    not the empty list. *)
Lemma to_many_without_rows_is_null :
  let db : database := λ t,
    if decide (t = "comment")
    then [λ c, if decide (c = "article_id") then JValue "2" else JValue "7"]
    else [] in
  let article : row := λ _, JValue "1" in
  ∃ v,
    @build_relationships Fixture.schema Fixture.json "Article"
      (Fixture.fields_of [("articles", ["comments"])]) 0
    = (Ok [s "comments"; v], 0)
    ∧ uselist Fixture.comments.2 = true
    ∧ @related_rows Fixture.schema db "Article" article Fixture.comments.2
      = Some []
    ∧ @data_value Fixture.schema db article v = Some JNull
    ∧ @data_value Fixture.schema db article v ≠ Some (JArray []).
Proof.
  eexists. split; [vm_compute; reflexivity|].
  split; [reflexivity|]. split; [vm_compute; reflexivity|].
  split; [vm_compute; reflexivity|]. vm_compute. discriminate.
Defined.

(** The same entry for an article that two of three comments refer
    to: the list of their identifier objects. *)
Example to_many_with_rows_is_list :
  let comment (id article_id : string) : row := λ c,
    if decide (c = "article_id") then JValue article_id else JValue id in
  let db : database := λ t,
    if decide (t = "comment")
    then [comment "5" "1"; comment "6" "2"; comment "7" "1"]
    else [] in
  let article : row := λ _, JValue "1" in
  ∃ v,
    @build_relationships Fixture.schema Fixture.json "Article"
      (Fixture.fields_of [("articles", ["comments"])]) 0
    = (Ok [s "comments"; v], 0)
    ∧ @data_value Fixture.schema db article v
      = Some (JArray [JObject [("id", JValue "5");
                               ("type", JValue "comments")];
                      JObject [("id", JValue "7");
                               ("type", JValue "comments")]]).
Proof.
  eexists. split; [vm_compute; reflexivity|]. vm_compute. reflexivity.
Qed.

Lemma relationship_data_cardinality_witness :
  ∃ out,
    @build_relationships Fixture.schema Fixture.json "Article"
      (Fixture.fields_of [("articles", ["name"; "comments"; "category"])]) 0
    = (Ok out, 0)
    ∧ ∃ A names,
        inversed_get Fixture.json "Article" = Ok A
        ∧ fields_getitem
            (Fixture.fields_of
               [("articles", ["name"; "comments"; "category"])]) A
          = Ok names
        ∧ Forall2 (@entry_of Fixture.schema Fixture.json "Article")
            (omap (λ field,
                     lookup_key field
                       (relationships (Fixture.catalog "Article")))
                  names)
            (object_members out).
Proof.
  eexists. split; [vm_compute; reflexivity|].
  eapply (@relationship_data_cardinality Fixture.schema Fixture.json
            "Article" _ 0 0).
  vm_compute. reflexivity.
Defined.

(** C3 on the chain of the include path
    [category.subcategories.subcategories], as [build_included] passes
    it: two hops precede the last.  One alias object is made, for the
    first hop, and the loop joins that hop from it with [aliased=True];
    the loop then rebinds [alias] to the mapped class Category itself,
    and the second hop, [Category.subcategories], is joined from that
    class without [aliased=True].  A join of Category to Category with
    no alias is refused by [query.join]: [select_aggregate] raises
    [InvalidRequestError] and returns no query, and so does [select] for
    that include path, at the third prefix, after the alias objects of
    the second and third prefixes are made. *)
Theorem select_aggregate_second_hop_unaliased :
  let chain := [Fixture.subcategories.2; Fixture.subcategories.2;
                Fixture.category.2] in
  let agg := identifier_object "Category" "categories" in
  let from_alias := SelectFrom (SessionQuery agg) (Aliased 0 "Category") in
  let same_entity :=
    InvalidRequestError "Can't construct a join, they are the same entity" in
  resolve_path Fixture.catalog "category.subcategories.subcategories"
               "Article" = Ok (reverse chain)
  ∧ @join_hops Fixture.schema (take (length chain - 2) chain) from_alias
      (Aliased 0 "Category")
    = Ok (Join from_alias (Aliased 0 "Category") "subcategories" true,
          Raw "Category")
  ∧ @select_aggregate Fixture.schema agg chain 0 = (Raise same_entity, 1)
  ∧ @select Fixture.schema Fixture.json "Article"
      (Fixture.fields_of [("articles", ["name"])])
      (Some ["category.subcategories.subcategories"]) 0
    = (Raise same_entity, 2).
Proof.
  repeat split; vm_compute; reflexivity.
Qed.

(** C2 as stated fails: [fields = {'bogus': ['x']}] against the mapping
    of the test suite, which registers no alias [bogus], raises nothing;
    [select] returns the query that selects only [id] and [type]. *)
Lemma unknown_alias_does_not_raise :
  ("bogus" ∉ Fixture.items.*1)
  ∧ ∃ q,
      @select Fixture.schema Fixture.json "Article"
        (Fixture.fields_of [("bogus", ["x"])]) None 0 = (Ok q, 0)
      ∧ @select Fixture.schema Fixture.json "Article" None None 0
        = (Ok q, 0).
Proof.
  split; [apply (bool_decide_unpack _); vm_compute; exact I|].
  eexists. split; vm_compute; reflexivity.
Defined.

Lemma unknown_alias_ignored_witness :
  ("bogus" ∉ Fixture.items.*1)
  ∧ @select Fixture.schema (JSONMapping_init (Some Fixture.items)) "Article"
      (Some (list_to_map [("bogus", ["x"]); ("articles", ["name"])]))
      (Some ["category"]) 0
    = @select Fixture.schema (JSONMapping_init (Some Fixture.items))
        "Article"
        (Some (delete "bogus"
                 (list_to_map [("bogus", ["x"]); ("articles", ["name"])])))
        (Some ["category"]) 0.
Proof.
  assert ("bogus" ∉ Fixture.items.*1) as Hbogus
    by (apply (bool_decide_unpack _); vm_compute; exact I).
  split; [exact Hbogus|].
  apply (@unknown_alias_ignored Fixture.schema Fixture.items "Article").
  exact Hbogus.
Defined.

(** C6 as stated fails: [bogus] is neither a column nor a relationship
    of Article, and [fields = {'articles': ['name', 'bogus']}] raises
    nothing. *)
Lemma undeclared_field_does_not_raise :
  ("bogus" ∉ (columns (Fixture.catalog "Article")).*1)
  ∧ ("bogus" ∉ (relationships (Fixture.catalog "Article")).*1)
  ∧ ∃ q,
      @select Fixture.schema Fixture.json "Article"
        (Fixture.fields_of [("articles", ["name"; "bogus"])]) None 0
      = (Ok q, 0).
Proof.
  split; [apply (bool_decide_unpack _); vm_compute; exact I|].
  split; [apply (bool_decide_unpack _); vm_compute; exact I|].
  eexists. vm_compute. reflexivity.
Defined.

Lemma undeclared_field_omitted_witness :
  @select Fixture.schema (JSONMapping_init (Some Fixture.items)) "Article"
    (Some (<["articles" := ["name"; "bogus"; "comments"]]> ∅))
    (Some ["category"]) 0
  = @select Fixture.schema (JSONMapping_init (Some Fixture.items)) "Article"
      (Some (<["articles" := filter (λ f, f ≠ "bogus")
                                    ["name"; "bogus"; "comments"]]> ∅))
      (Some ["category"]) 0.
Proof.
  apply (@undeclared_field_omitted Fixture.schema Fixture.items "Article").
  - apply (bool_decide_unpack _). vm_compute. exact I.
  - vm_compute. reflexivity.
  - apply (bool_decide_unpack _). vm_compute. exact I.
  - apply (bool_decide_unpack _). vm_compute. exact I.
Defined.

(** C8 as stated fails: the include list [['bogus']] is non-empty and
    resolves to nothing, and building fails with the resolver's error,
    not with an error of the empty include set. *)
Lemma unresolvable_include_raises_resolver_error :
  ∃ e,
    @select Fixture.schema Fixture.json "Article"
      (Fixture.fields_of [("articles", ["name"])]) (Some ["bogus"]) 0
    = (Raise e, 0)
    ∧ e = UnknownRelationshipError "bogus" "Article"
    ∧ exn_name e ≠ "EmptyIncludeSetError".
Proof.
  eexists. split; [vm_compute; reflexivity|]. split; [reflexivity|].
  discriminate.
Defined.

(** C8 on two paths that do not resolve: the error is the resolver's
    for the first of them. *)
Lemma build_included_nothing_to_union_witness :
  ["bogus"; "nope"] ≠ []
  ∧ @select Fixture.schema Fixture.json "Article"
      (Fixture.fields_of [("articles", ["name"; "comments"])])
      (Some ["bogus"; "nope"]) 0
    = (Raise (UnknownRelationshipError "bogus" "Article"), 0).
Proof.
  assert (Hne : ["bogus"; "nope"] ≠ []) by discriminate.
  assert (Hall : ∀ p, p ∈ ["bogus"; "nope"] →
    @path_to_relationships Fixture.schema p "Article" = Ok []
    ∨ ∃ e, @path_to_relationships Fixture.schema p "Article" = Raise e).
  { intros p Hp. right.
    apply elem_of_cons in Hp as [->|Hp];
      [|apply list_elem_of_singleton in Hp as ->];
      eexists; vm_compute; reflexivity. }
  split; [exact Hne|].
  eapply (proj2 (@build_included_nothing_to_union Fixture.schema
                   Fixture.json "Article"
                   (Fixture.fields_of [("articles", ["name"; "comments"])])
                   ["bogus"; "nope"] 0 Hne Hall)).
  - vm_compute. reflexivity.
  - apply (bool_decide_unpack _). vm_compute. exact I.
  - intros names r Hnames Hr. vm_compute in Hnames.
    injection Hnames as <-. vm_compute in Hr.
    apply list_elem_of_singleton in Hr as ->.
    split; [eexists; vm_compute; reflexivity|].
    apply (bool_decide_unpack _). vm_compute. exact I.
Defined.

(** The other two cases of C8.  A root without an alias: the
    [KeyError] of [build_data] comes before the resolver is called. *)
Example nothing_to_union_unregistered_root :
  @select Fixture.schema Fixture.json "User"
    (Fixture.fields_of [("articles", ["name"])]) (Some ["bogus"; "nope"]) 0
  = (Raise (KeyError "User"), 0).
Proof. vm_compute. reflexivity. Qed.

(** A resolver that resolves every path to the empty chain leaves
    [reduce] an empty sequence. *)
Example nothing_to_union_reduce_error :
  let empty_chains : Schema :=
    {| inspect := Fixture.catalog;
       path_to_relationships := λ _ _, Ok [] |} in
  @select empty_chains Fixture.json "Article"
    (Fixture.fields_of [("articles", ["name"])]) (Some ["x"; "y"]) 0
  = (Raise (TypeError "reduce() of empty sequence with no initial value"),
     0).
Proof. vm_compute. reflexivity. Qed.



(** * The further properties on the schema of the test suite *)

Lemma registry_round_trip_witness :
  NoDup Fixture.items.*2
  ∧ (inversed_get (JSONMapping_init (Some Fixture.items)) "Category"
     = Ok "categories"
     ↔ ("categories", "Category") ∈ Fixture.items).
Proof.
  assert (NoDup Fixture.items.*2) as Hnd
    by (apply (bool_decide_unpack _); vm_compute; exact I).
  split; [exact Hnd|]. apply (registry_round_trip _ _ _ Hnd).
Defined.

(** The module-level [json = JSONMapping()]. *)
Lemma select_without_mapping_witness :
  @select Fixture.schema (JSONMapping_init None) "Article"
    (Fixture.fields_of [("articles", ["name"])]) (Some ["category"]) 0
  = (Raise (TypeError "'NoneType' object is not subscriptable"), 0).
Proof.
  apply (@select_without_mapping Fixture.schema None). by left.
Defined.

(** User is mapped but has no alias in the mapping of the test suite. *)
Lemma select_unregistered_root_witness :
  @select Fixture.schema Fixture.json "User" None None 0
  = (Raise (KeyError "User"), 0).
Proof.
  apply (@select_unregistered_root Fixture.schema Fixture.json
           (inverse_items Fixture.items)); vm_compute; reflexivity.
Defined.

(** [fields = {'articles': ['name', 'author']}]: the target of
    [Article.author] is User. *)
Lemma select_unregistered_target_witness :
  @select Fixture.schema Fixture.json "Article"
    (Some (list_to_map [("articles", ["name"; "author"])])) None 0
  = (Raise (KeyError "User"), 0).
Proof.
  eapply (@select_unregistered_target Fixture.schema Fixture.json
            (inverse_items Fixture.items) "Article" "articles" _
            ["name"; "author"]
            (Fixture.rel "author" "User" false
               ("article", "author_id") ("user", "id")).2 []);
    vm_compute; reflexivity.
Defined.

Lemma build_attributes_plain_columns_witness :
  ∃ attrs,
    @build_attributes Fixture.schema Fixture.json "Article" None = Ok attrs
    ∧ ∀ kv, kv ∈ object_members attrs →
        ∃ k c, kv = (s k, ColumnE c)
               ∧ (k, c) ∈ columns (Fixture.catalog "Article")
               ∧ primary_key c = false
               ∧ ∀ fk, fk ∈ foreign_keys (table c) →
                       fk_parent fk ≠ column_name c.
Proof.
  eexists. split; [vm_compute; reflexivity|].
  eapply (@build_attributes_plain_columns Fixture.schema Fixture.json
            "Article" None).
  vm_compute. reflexivity.
Defined.

(** Category under [fields = {'articles': ['name']}]: all of [name] and
    [created_at], not [id] nor [parent_id]. *)
Lemma build_attributes_unselected_witness :
  ∃ attrs,
    @build_attributes Fixture.schema Fixture.json "Category"
      (Fixture.fields_of [("articles", ["name"])]) = Ok attrs
    ∧ object_keys attrs = s <$> @plain_columns Fixture.schema "Category".
Proof.
  apply (@build_attributes_unselected Fixture.schema Fixture.json
           "Category" "categories"); vm_compute; reflexivity.
Defined.

(** [fields = {'articles': ['category']}]: a relationships block and no
    attributes block, as in [test_include_parameter]. *)
Lemma attrs_and_relationships_blocks_witness :
  ∃ out,
    @build_attrs_and_relationships Fixture.schema Fixture.json "Article"
      (Some (list_to_map [("articles", ["category"])])) 0 = (Ok out, 0)
    ∧ object_keys out = [s "relationships"].
Proof.
  eexists. split; [vm_compute; reflexivity|].
  apply (@attrs_and_relationships_blocks Fixture.schema Fixture.json
           "Article" "articles" (list_to_map [("articles", ["category"])])
           ["category"] 0 0);
    vm_compute; reflexivity.
Defined.

Lemma select_aggregate_shape_witness :
  let agg := identifier_object "Category" "categories" in
  ∃ q l inner,
    @select_aggregate Fixture.schema agg
      [Fixture.subcategories.2; Fixture.category.2] 0 = (Ok q, 1)
    ∧ last [Fixture.subcategories.2; Fixture.category.2] = Some l
    ∧ q = Filter match secondary l with
                 | Some t => JoinOn inner t (secondaryjoin l)
                 | None => inner
                 end (primaryjoin l)
    ∧ selected inner = Some agg
    ∧ length (joins inner) = 1.
Proof.
  intros agg.
  destruct (@select_aggregate_shape Fixture.schema agg
              [Fixture.subcategories.2; Fixture.category.2] 0 1
              (Filter
                 (Join (SelectFrom (SessionQuery agg)
                                   (Aliased 0 "Category"))
                       (Aliased 0 "Category") "subcategories" false)
                 (primaryjoin Fixture.category.2)))
    as (l & inner & Hl & Hq & Hsel & Hjoins & _);
    [vm_compute; reflexivity|].
  eexists _, l, inner. split; [vm_compute; reflexivity|]. done.
Defined.

(** X9 on the chain of the include path [category.subcategories]:
    Category has a relationship named [subcategories]. *)
Lemma select_aggregate_two_hops_attribute_witness :
  let agg := identifier_object "Category" "categories" in
  let alias := Aliased 0 "Category" in
  is_text agg = false
  ∧ @select_aggregate Fixture.schema agg
      [Fixture.subcategories.2; Fixture.category.2] 0
    = (Ok (Filter (Join (SelectFrom (SessionQuery agg) alias) alias
                        "subcategories" false)
                  (primaryjoin Fixture.category.2)), 1).
Proof.
  intros agg alias. split; [reflexivity|].
  rewrite (@select_aggregate_two_hops_attribute Fixture.schema agg
             Fixture.subcategories.2 Fixture.category.2 0 eq_refl).
  vm_compute. reflexivity.
Defined.

(** [include=['category.subcategories', 'comments']]: three
    sub-queries. *)
Lemma build_included_members_witness :
  ∃ out union chains,
    @build_included Fixture.schema Fixture.json "Article"
      (Fixture.fields_of [("categories", ["name"])])
      (Some ["category.subcategories"; "comments"]) 0 = (Ok out, 1)
    ∧ out = [s "included";
             AsScalar
               (Select [Func "array_agg" [Text "included.json_object"]]
                       (Some (FromSubquery union "included")))]
    ∧ Forall2 (λ p chain,
                 @path_to_relationships Fixture.schema p "Article"
                 = Ok chain)
              ["category.subcategories"; "comments"] chains
    ∧ Forall2 (included_member Fixture.json "Article")
              (concat (path_members <$> chains)) (union_members union).
Proof.
  assert (Hrun : ∃ out,
    @build_included Fixture.schema Fixture.json "Article"
      (Fixture.fields_of [("categories", ["name"])])
      (Some ["category.subcategories"; "comments"]) 0 = (Ok out, 1))
    by (eexists; vm_compute; reflexivity).
  destruct Hrun as [out Hrun].
  assert (Hne : ["category.subcategories"; "comments"] ≠ [])
    by discriminate.
  destruct (@build_included_members Fixture.schema Fixture.json "Article"
              _ _ 0 1 out Hne Hrun)
    as (union & chains & Hout & Hres & Hmembers).
  by exists out, union, chains.
Defined.

(** [include=['comments.article']]: Article has no attribute named
    [article]. *)
Lemma include_two_segments_attribute_witness :
  @build_included Fixture.schema Fixture.json "Article"
    (Some (list_to_map [("articles", ["name"])]))
    (Some ["comments.article"]) 0
  = (Raise (AttributeError "Article" "article"), 1).
Proof.
  eapply (@include_two_segments_attribute Fixture.schema Fixture.json
            "Article" _ "comments.article" [] Fixture.comments.2
            (Fixture.rel "article" "Article" false
               ("article", "id") ("comment", "article_id")).2);
    vm_compute; reflexivity.
Defined.

Lemma select_document_keys_witness :
  ∃ q args,
    @select Fixture.schema Fixture.json "Article"
      (Fixture.fields_of [("articles", ["name"])]) (Some ["category"]) 0
    = (Ok q, 0)
    ∧ q = Select [Func "json_build_object" args]
                 (Some (FromEntity "Article"))
    ∧ object_keys args = [s "data"; s "included"].
Proof.
  assert (Hrun : ∃ q,
    @select Fixture.schema Fixture.json "Article"
      (Fixture.fields_of [("articles", ["name"])]) (Some ["category"]) 0
    = (Ok q, 0)) by (eexists; vm_compute; reflexivity).
  destruct Hrun as [q Hrun].
  destruct (@select_document_keys Fixture.schema Fixture.json "Article"
              _ _ 0 0 q Hrun) as (args & Hq & Hkeys).
  by exists q, args.
Defined.

Lemma select_without_include_makes_no_alias_witness :
  (@select Fixture.schema Fixture.json "Article"
     (Fixture.fields_of [("articles", ["name"; "comments"; "category"])])
     None 7).2 = 7.
Proof.
  apply (@select_without_include_makes_no_alias Fixture.schema).
  by left.
Defined.

Lemma select_succeeds_witness :
  ∃ q,
    @select Fixture.schema Fixture.json "Article"
      (Fixture.fields_of
         [("articles", ["name"; "bogus"; "comments"; "category"]);
          ("bogus", ["x"])]) None 0 = (Ok q, 0).
Proof.
  apply (@select_succeeds Fixture.schema Fixture.json "Article" "articles").
  - by left.
  - vm_compute; reflexivity.
  - vm_compute; reflexivity.
  - intros names r Hnames Hr. vm_compute in Hnames.
    injection Hnames as <-. vm_compute in Hr.
    apply elem_of_cons in Hr as [-> | Hr];
      [|apply elem_of_cons in Hr as [-> | Hr];
        [|by apply not_elem_of_nil in Hr]];
      (split; [eexists|]; vm_compute; reflexivity).
Defined.

(** [fields = {'categories': ['name']}] for the root Article, as in
    [test_include_parameter]: the data block is [id] and [type] only. *)
Lemma build_data_omission_witness :
  ∃ v,
    @build_data Fixture.schema Fixture.json "Article"
      (Fixture.fields_of [("categories", ["name"])]) (Some ["category"]) 0
    = (Ok [s "data"; v], 0)
    ∧ @build_data Fixture.schema Fixture.json "Article" None None 0
      = (Ok [s "data"; v], 0).
Proof.
  eexists. split.
  - apply (@build_data_omission Fixture.schema Fixture.json "Article"
             "articles"); vm_compute; reflexivity.
  - vm_compute. reflexivity.
Defined.

(** [include=['category.subcategories', 'comments']]: chains of two
    and of one relationship, one alias object. *)
Lemma build_included_alias_count_witness :
  ∃ out chains,
    @build_included Fixture.schema Fixture.json "Article"
      (Fixture.fields_of [("categories", ["name"])])
      (Some ["category.subcategories"; "comments"]) 5 = (Ok out, 6)
    ∧ Forall2 (λ p chain,
                 @path_to_relationships Fixture.schema p "Article"
                 = Ok chain)
              ["category.subcategories"; "comments"] chains
    ∧ 6 = 5 + sum_list ((λ chain, length chain - 1) <$> chains).
Proof.
  assert (Hrun : ∃ out,
    @build_included Fixture.schema Fixture.json "Article"
      (Fixture.fields_of [("categories", ["name"])])
      (Some ["category.subcategories"; "comments"]) 5 = (Ok out, 6))
    by (eexists; vm_compute; reflexivity).
  destruct Hrun as [out Hrun].
  destruct (@build_included_alias_count Fixture.schema Fixture.json
              "Article" _ _ 5 6 out Hrun) as (chains & Hres & Hcount).
  by exists out, chains.
Defined.
